(** * Total unsigned flux of a SHARP patch

    A verification development for [compute_abs_flux_dask], the
    [cdelt1_arcsec] derivation and [parse_tai_string] of
    [calculate_swx_workflow.ipynb].

    The notebook is duck-typed: the same loop runs on whatever numeric
    scalars the arrays hold.  The embedding keeps that shape: the loop is
    written once over an arithmetic interface ([Arith]); what depends on
    the mask and the reads alone is proved for every arithmetic.  The
    arithmetic of the program is [binary64], IEEE 754 double precision as
    numpy and dask use it (primitive floats; every definition evaluates),
    and what depends on the numbers is proved there. *)

From Stdlib Require Import List ZArith Bool Lia PeanoNat.
From Stdlib Require Import Floats.
From Stdlib Require String Ascii.
Import ListNotations.

(** decimal literals denote the nearest double, as they do in Python *)
Set Warnings "-inexact-float".

(** ** Exceptions

    The only exception the loop can raise on well-typed arguments is the
    [IndexError] of an element access outside an array. *)

Inductive result (A : Type) : Type :=
| Ok (a : A)
| IndexError.

Arguments Ok {A} a.
Arguments IndexError {A}.

Definition bind {A B : Type} (m : result A) (k : A -> result B) : result B :=
  match m with
  | Ok a => k a
  | IndexError => IndexError
  end.

Notation "x <- m ;; k" := (bind m (fun x => k))
  (at level 61, m at next level, right associativity).

(** ** Arrays

    A two-dimensional array is the list of its rows; [a[j,i]] raises
    outside the array.  The loop indices come from [range], so they are
    never negative and Python's wrap-around of negative indices is not
    involved.

    The field [Br] and its error [Br_err] are float64 images.  The
    [bitmap] and [conf_disambig] segments are integer images, and are
    compared with the integer literals 30 and 70. *)

Definition array (A : Type) : Type := list (list A).

Definition get2 {A : Type} (a : array A) (j i : nat) : result A :=
  match nth_error a j with
  | Some row =>
      match nth_error row i with
      | Some x => Ok x
      | None => IndexError
      end
  | None => IndexError
  end.

(** [a.shape == (ny, nx)] *)
Definition has_shape {A : Type} (a : array A) (ny nx : nat) : bool :=
  (length a =? ny)%nat && forallb (fun row => (length row =? nx)%nat) a.

(** every [a[j,i]] with [j < ny] and [i < nx] exists *)
Definition in_range {A : Type} (a : array A) (j i : nat) : bool :=
  match get2 a j i with
  | Ok _ => true
  | IndexError => false
  end.

Definition covers {A : Type} (a : array A) (ny nx : nat) : bool :=
  forallb (fun j => forallb (fun i => in_range a j i) (seq 0 nx)) (seq 0 ny).

(** ** The arithmetic of the array elements *)

Class Arith (num : Type) : Type := {
  nzero : num;                  (* 0.0 *)
  nhundred : num;               (* 100.0 *)
  nadd : num -> num -> num;
  nmul : num -> num -> num;
  ndiv : num -> num -> num;
  nabs : num -> num;            (* abs *)
  nsqrt : num -> num;           (* np.sqrt *)
  nisnan : num -> bool          (* np.isnan *)
}.

(** ** The program *)

Section Flux.

Context {num : Type} {ops : Arith num}.

(** the three accumulators of the loop *)
Record acc : Type := mkAcc {
  count_mask : Z;
  sum : num;
  err : num
}.

Definition acc0 : acc := mkAcc 0 nzero nzero.

Variables (bz bz_err : array num) (conf_disambig bitmap : array Z).

(** body of the inner loop; [continue] returns the accumulators as they
    are.  [or] evaluates [bitmap[j,i]] only when the first test fails. *)
Definition pixel_step (j i : nat) (st : acc) : result acc :=
  c <- get2 conf_disambig j i ;;
  skip <- (if (c <? 70)%Z then Ok true
           else b <- get2 bitmap j i ;; Ok (b <? 30)%Z) ;;
  if (skip : bool) then Ok st else
  z <- get2 bz j i ;;
  if nisnan z then Ok st else
  e <- get2 bz_err j i ;;
  Ok (mkAcc (count_mask st + 1) (nadd (sum st) (nabs z))
            (nadd (err st) (nmul e e))).

(** [for k in l: s = body(k, s)] *)
Fixpoint for_range {S : Type} (l : list nat) (body : nat -> S -> result S)
    (s : S) : result S :=
  match l with
  | [] => Ok s
  | k :: l' => s' <- body k s ;; for_range l' body s'
  end.

Definition flux_loop (nx ny : nat) : result acc :=
  for_range (seq 0 ny)
    (fun j => for_range (seq 0 nx) (fun i => pixel_step j i)) acc0.

(** [cdelt1_arcsec*cdelt1_arcsec*(rsun_ref/rsun_obs)*(rsun_ref/rsun_obs)*100.0*100.0]
    after a first factor [x], multiplied from left to right. *)
Definition scale (x rsun_ref rsun_obs cdelt1_arcsec : num) : num :=
  nmul (nmul (nmul (nmul (nmul (nmul x cdelt1_arcsec) cdelt1_arcsec)
                         (ndiv rsun_ref rsun_obs))
                   (ndiv rsun_ref rsun_obs))
             nhundred)
       nhundred.

Definition pixel_factor (rsun_ref rsun_obs cdelt1_arcsec : num) : num :=
  nmul (nmul (nmul (nmul (nmul cdelt1_arcsec cdelt1_arcsec)
                         (ndiv rsun_ref rsun_obs))
                   (ndiv rsun_ref rsun_obs))
             nhundred)
       nhundred.

Definition finish (rsun_ref rsun_obs cdelt1_arcsec : num) (st : acc)
    : num * num * Z :=
  let mean_vf := scale (sum st) rsun_ref rsun_obs cdelt1_arcsec in
  let mean_vf_err :=
    nmul (nsqrt (err st))
         (nabs (pixel_factor rsun_ref rsun_obs cdelt1_arcsec)) in
  (mean_vf, mean_vf_err, count_mask st).

Definition compute_abs_flux_dask (nx ny : nat)
    (rsun_ref rsun_obs cdelt1_arcsec : num) : result (num * num * Z) :=
  st <- flux_loop nx ny ;;
  Ok (finish rsun_ref rsun_obs cdelt1_arcsec st).

End Flux.

(** ** IEEE 754 double precision *)

#[export] Instance binary64 : Arith float := {
  nzero := 0%float;
  nhundred := 100%float;
  nadd := PrimFloat.add;
  nmul := PrimFloat.mul;
  ndiv := PrimFloat.div;
  nabs := PrimFloat.abs;
  nsqrt := PrimFloat.sqrt;
  nisnan := PrimFloat.is_nan
}.

(** ** The geometry of one record

    [get_data_for_a_single_trec_dask(i)] and its numpy twin fetch the four
    image segments of record [i] and read four keywords of the same
    record.  What the remote store serves for the record is the input
    here; [da.from_array] wraps an array without changing its elements.
    The keywords are numpy float64 scalars, so every operation on them is
    an IEEE operation, a division by zero included.

    [math.atan] is a function of the C library that Rocq's floats do not
    have; the functions take it as the parameter [atan]. *)

Record trec : Type := mkTrec {
  Br : array float;
  Br_err : array float;
  seg_conf_disambig : array Z;
  seg_bitmap : array Z;
  RSUN_REF : float;
  RSUN_OBS : float;
  CDELT1 : float;
  DSUN_OBS : float
}.

(** [np.pi], the double next to pi *)
Definition np_pi : float := 0x1.921fb54442d18p+1%float.

(** [radsindeg = np.pi/180.] *)
Definition radsindeg : float := (np_pi / 180)%float.

(** [a.shape[0]] and [a.shape[1]] *)
Definition shape0 {A : Type} (a : array A) : nat := length a.
Definition shape1 {A : Type} (a : array A) : nat := length (hd [] a).

Section Geometry.

Variable atan : float -> float.

(** [(math.atan((rsun_ref*cdelt1*radsindeg)/(dsun_obs)))*(1/radsindeg)*(3600.)] *)
Definition cdelt1_arcsec_of (rsun_ref cdelt1 dsun_obs : float) : float :=
  (atan ((rsun_ref * cdelt1 * radsindeg) / dsun_obs)
   * (1 / radsindeg) * 3600)%float.

Definition get_data_for_a_single_trec_dask (t : trec)
    : array float * array float * array Z * array Z * nat * nat
      * float * float * float :=
  let bz := Br t in
  let bz_err := Br_err t in
  let conf_disambig := seg_conf_disambig t in
  let bitmap := seg_bitmap t in
  let nx := shape1 bz in
  let ny := shape0 bz in
  let rsun_ref := RSUN_REF t in
  let rsun_obs := RSUN_OBS t in
  let cdelt1 := CDELT1 t in
  let dsun_obs := DSUN_OBS t in
  let cdelt1_arcsec := cdelt1_arcsec_of rsun_ref cdelt1 dsun_obs in
  (bz, bz_err, conf_disambig, bitmap, nx, ny, rsun_ref, rsun_obs, cdelt1_arcsec).

Definition get_data_for_a_single_trec_numpy (t : trec)
    : array float * array float * array Z * array Z * nat * nat
      * float * float * float :=
  let bz := Br t in
  let bz_err := Br_err t in
  let conf_disambig := seg_conf_disambig t in
  let bitmap := seg_bitmap t in
  let nx := shape1 bz in
  let ny := shape0 bz in
  let rsun_ref := RSUN_REF t in
  let rsun_obs := RSUN_OBS t in
  let cdelt1 := CDELT1 t in
  let dsun_obs := DSUN_OBS t in
  let cdelt1_arcsec := cdelt1_arcsec_of rsun_ref cdelt1 dsun_obs in
  (bz, bz_err, conf_disambig, bitmap, nx, ny, rsun_ref, rsun_obs, cdelt1_arcsec).

(** [bz, ..., cdelt1_arcsec = get_data_for_a_single_trec_dask(0)] followed
    by [compute_abs_flux_dask(bz, ..., cdelt1_arcsec)], the two notebook
    cells that lead from a record to its keyword *)
Definition notebook_flux (t : trec) : result (float * float * Z) :=
  let '(bz, bz_err, conf_disambig, bitmap, nx, ny, rsun_ref, rsun_obs,
        cdelt1_arcsec) := get_data_for_a_single_trec_dask t in
  compute_abs_flux_dask bz bz_err conf_disambig bitmap nx ny
    rsun_ref rsun_obs cdelt1_arcsec.

End Geometry.

(** the last component of the tuple either function returns *)
Definition arcsec_of_tuple
    (r : array float * array float * array Z * array Z * nat * nat
         * float * float * float) : float := snd r.

(** ** What the documentation says the loop computes

    The pixels of an [ny] by [nx] image in the order the loops visit them,
    row by row. *)

Definition all_pixels (ny nx : nat) : list (nat * nat) :=
  flat_map (fun j => map (pair j) (seq 0 nx)) (seq 0 ny).

(** [a[j,i]] where it exists *)
Definition px {A : Type} (d : A) (a : array A) (p : nat * nat) : A :=
  nth (snd p) (nth (fst p) a []) d.

Section Keyword.

Context {num : Type} {ops : Arith num}.
Variables (bz bz_err : array num) (conf_disambig bitmap : array Z).

(** the validity mask: in the region, trusted disambiguation, field not nan *)
Definition valid (p : nat * nat) : bool :=
  (30 <=? px 0%Z bitmap p)%Z && (70 <=? px 0%Z conf_disambig p)%Z
  && negb (nisnan (px nzero bz p)).

Definition valid_pixels (ny nx : nat) : list (nat * nat) :=
  filter valid (all_pixels ny nx).

(** what one pixel that passed the mask adds to the accumulators *)
Definition add_pixel (st : acc) (p : nat * nat) : acc :=
  mkAcc (count_mask st + 1)
        (nadd (sum st) (nabs (px nzero bz p)))
        (nadd (err st) (nmul (px nzero bz_err p) (px nzero bz_err p))).

(** sums over a list of pixels, added in the order of the list *)
Definition sum_abs (ps : list (nat * nat)) : num :=
  fold_left (fun s p => nadd s (nabs (px nzero bz p))) ps nzero.

Definition sum_sq_err (ps : list (nat * nat)) : num :=
  fold_left (fun s p => nadd s (nmul (px nzero bz_err p) (px nzero bz_err p)))
            ps nzero.

(** the keyword triple aggregated over the pixels [ps] *)
Definition flux_over (rsun_ref rsun_obs cdelt1_arcsec : num)
    (ps : list (nat * nat)) : num * num * Z :=
  (scale (sum_abs ps) rsun_ref rsun_obs cdelt1_arcsec,
   nmul (nsqrt (sum_sq_err ps))
        (nabs (pixel_factor rsun_ref rsun_obs cdelt1_arcsec)),
   Z.of_nat (length ps)).

End Keyword.

(** the pixels [ps] with the pixel [p0] removed *)
Definition same_pixel (p q : nat * nat) : bool :=
  (fst p =? fst q)%nat && (snd p =? snd q)%nat.

Definition without (p0 : nat * nat) (ps : list (nat * nat))
    : list (nat * nat) :=
  filter (fun p => negb (same_pixel p p0)) ps.

(** [bz] with every value replaced by its negation *)
Definition negated {A : Type} (neg : A -> A) (a : array A) : array A :=
  map (map neg) a.

(** the sums of the documentation in double precision, added in the order
    of the list: of |bz| and of bz_err^2 over the pixels [ps] *)
Definition total_abs (bz : array float) (ps : list (nat * nat)) : float :=
  fold_left (fun s p => (s + PrimFloat.abs (px 0%float bz p))%float)
            ps 0%float.

Definition total_sq_err (bz_err : array float) (ps : list (nat * nat))
    : float :=
  fold_left (fun s p => (s + px 0%float bz_err p * px 0%float bz_err p)%float)
            ps 0%float.

(** the sign of a double that is not nan is [s] *)
Definition has_sign (s : bool) (x : spec_float) : Prop :=
  match x with
  | S754_nan => True
  | S754_zero t | S754_infinity t | S754_finite t _ _ => t = s
  end.

(** the sign bit, false for nan *)
Definition sign_bit (x : spec_float) : bool :=
  match x with
  | S754_nan => false
  | S754_zero t | S754_infinity t | S754_finite t _ _ => t
  end.

(** zero or finite: neither nan nor an infinity *)
Definition sf_finite (x : spec_float) : bool :=
  match x with
  | S754_zero _ | S754_finite _ _ _ => true
  | _ => false
  end.

(** what the loop needs of the arrays at the pixel [(j, i)]: the
    confidence, then the bitmap unless the confidence is below 70, then the
    field unless the bitmap is below 30, then the error unless the field is
    nan *)
Definition reads_ok {num : Type} {ops : Arith num} (bz bz_err : array num)
    (conf_disambig bitmap : array Z) (p : nat * nat) : bool :=
  match get2 conf_disambig (fst p) (snd p) with
  | IndexError => false
  | Ok c =>
      if (c <? 70)%Z then true else
      match get2 bitmap (fst p) (snd p) with
      | IndexError => false
      | Ok b =>
          if (b <? 30)%Z then true else
          match get2 bz (fst p) (snd p) with
          | IndexError => false
          | Ok z => if nisnan z then true else in_range bz_err (fst p) (snd p)
          end
      end
  end.

(** the pixel [p] moved down by [k] rows *)
Definition shift_rows (k : nat) (p : nat * nat) : nat * nat :=
  (k + fst p, snd p)%nat.

(** ** Record times

    [parse_tai_string] reads the five leading fields of a [T_REC] keyword
    such as [2011.02.14_15:00:00_TAI].  A string is the list of its
    characters, here code points below 256. *)

Module Tai.

Import Ascii String.
Local Open Scope string_scope.

(** the only exception of [int] on a string and of the [datetime]
    constructor on integers *)
Inductive outcome (A : Type) : Type :=
| Value (a : A)
| ValueError.

Arguments Value {A} a.
Arguments ValueError {A}.

Definition and_then {A B : Type} (m : outcome A) (k : A -> outcome B)
    : outcome B :=
  match m with
  | Value a => k a
  | ValueError => ValueError
  end.

Notation "x <~ m ;; k" := (and_then m (fun x => k))
  (at level 61, m at next level, right associativity).

(** *** [int(s)] on a string, base 10

    Optional white space, an optional sign, decimal digits that single
    underscores may separate, optional white space. *)

Definition is_space (c : ascii) : bool :=
  let n := nat_of_ascii c in
  ((9 <=? n) && (n <=? 13) || (n =? 32) || (n =? 133) || (n =? 160))%nat.

Definition digit_value (c : ascii) : option Z :=
  let n := nat_of_ascii c in
  if ((48 <=? n) && (n <=? 57))%nat then Some (Z.of_nat n - 48)%Z else None.

Definition is_underscore (c : ascii) : bool := (nat_of_ascii c =? 95)%nat.

Fixpoint skip_space (s : string) : string :=
  match s with
  | String c s' => if is_space c then skip_space s' else s
  | EmptyString => s
  end.

(** the digits of the literal; [after_digit] tells that the character
    before was a digit, which an underscore and the end both need *)
Fixpoint scan_digits (acc : Z) (after_digit : bool) (s : string)
    : option (Z * string) :=
  match s with
  | String c s' =>
      match digit_value c with
      | Some d => scan_digits (10 * acc + d) true s'
      | None =>
          if is_underscore c
          then (if after_digit then scan_digits acc false s' else None)
          else (if after_digit then Some (acc, s) else None)
      end
  | EmptyString => if after_digit then Some (acc, s) else None
  end.

Definition int (s : string) : outcome Z :=
  let s1 := skip_space s in
  let '(negative, s2) :=
    match s1 with
    | String "+" r => (false, r)
    | String "-" r => (true, r)
    | _ => (false, s1)
    end in
  match scan_digits 0 false s2 with
  | Some (n, rest) =>
      match skip_space rest with
      | EmptyString => Value (if negative then (- n)%Z else n)
      | _ => ValueError
      end
  | None => ValueError
  end.

(** *** [datetime(year, month, day, hour, minute)] *)

Record datetime : Type := mk_datetime {
  year : Z;
  month : Z;
  day : Z;
  hour : Z;
  minute : Z;
  second : Z;
  microsecond : Z
}.

Definition is_leap (y : Z) : bool :=
  ((y mod 4 =? 0) && (negb (y mod 100 =? 0) || (y mod 400 =? 0)))%Z.

Definition days_in_month (y m : Z) : Z :=
  if (m =? 2)%Z then (if is_leap y then 29 else 28)%Z
  else if ((m =? 4) || (m =? 6) || (m =? 9) || (m =? 11))%Z then 30%Z
  else 31%Z.

Definition dt_obj (y mo d h mi : Z) : outcome datetime :=
  if ((1 <=? y) && (y <=? 9999) && (1 <=? mo) && (mo <=? 12)
      && (1 <=? d) && (d <=? days_in_month y mo)
      && (0 <=? h) && (h <=? 23) && (0 <=? mi) && (mi <=? 59))%Z
  then Value (mk_datetime y mo d h mi 0 0)
  else ValueError.

(** *** The function *)

Inductive parsed : Type :=
| AsDatetime (d : datetime)
| AsTuple (year month day hour minute : Z).

(** [tstr[a:b]] for [0 <= a <= b] *)
Definition slice (a b : nat) (tstr : string) : string :=
  substring a (b - a) tstr.

Definition parse_tai_string (tstr : string) (datetime : bool)
    : outcome parsed :=
  year <~ int (slice 0 4 tstr) ;;
  month <~ int (slice 5 7 tstr) ;;
  day <~ int (slice 8 10 tstr) ;;
  hour <~ int (slice 11 13 tstr) ;;
  minute <~ int (slice 14 16 tstr) ;;
  if datetime
  then d <~ dt_obj year month day hour minute ;; Value (AsDatetime d)
  else Value (AsTuple year month day hour minute).

(** [[parse_tai_string(keys.T_REC[i], datetime=True)
      for i in range(keys.T_REC.size)]] *)
Fixpoint t_rec (T_REC : list string) : outcome (list parsed) :=
  match T_REC with
  | [] => Value []
  | tstr :: rest =>
      d <~ parse_tai_string tstr true ;;
      ds <~ t_rec rest ;;
      Value (d :: ds)
  end.

(** the character of a decimal digit *)
Definition digit (n : nat) : ascii := ascii_of_nat (48 + n).

End Tai.

(** * Properties *)

(** ** Element access *)

Lemma get2_px {A : Type} (d : A) (a : array A) (j i : nat) (x : A) :
  get2 a j i = Ok x -> px d a (j, i) = x.
Proof.
  unfold get2, px; simpl.
  destruct (nth_error a j) as [row|] eqn:Ej; [|discriminate].
  destruct (nth_error row i) as [y|] eqn:Ei; [|discriminate].
  intros H. inversion H; subst.
  rewrite (nth_error_nth a j [] Ej). apply (nth_error_nth row i d Ei).
Qed.

Lemma covers_in_range {A : Type} (a : array A) (ny nx j i : nat) :
  covers a ny nx = true -> (j < ny)%nat -> (i < nx)%nat ->
  in_range a j i = true.
Proof.
  unfold covers. intros H Hj Hi.
  rewrite forallb_forall in H.
  assert (Hrow := H j ltac:(apply in_seq; lia)).
  rewrite forallb_forall in Hrow. apply Hrow. apply in_seq. lia.
Qed.

Lemma covers_get2 {A : Type} (d : A) (a : array A) (ny nx j i : nat) :
  covers a ny nx = true -> (j < ny)%nat -> (i < nx)%nat ->
  get2 a j i = Ok (px d a (j, i)).
Proof.
  intros H Hj Hi. assert (Hr := covers_in_range a ny nx j i H Hj Hi).
  unfold in_range in Hr.
  destruct (get2 a j i) as [x|] eqn:E; [|discriminate].
  rewrite (get2_px d a j i x E). reflexivity.
Qed.

Lemma not_covers_index_error {A : Type} (a : array A) (ny nx : nat) :
  covers a ny nx = false ->
  exists j i, (j < ny)%nat /\ (i < nx)%nat /\ get2 a j i = IndexError.
Proof.
  unfold covers. intros H.
  destruct (forallb_forall (fun j => forallb (fun i => in_range a j i)
                                             (seq 0 nx)) (seq 0 ny)) as [_ Hall].
  destruct (existsb (fun j => negb (forallb (fun i => in_range a j i)
                                            (seq 0 nx))) (seq 0 ny)) eqn:Ex.
  - apply existsb_exists in Ex. destruct Ex as [j [Hj Hrow]].
    apply negb_true_iff in Hrow.
    destruct (existsb (fun i => negb (in_range a j i)) (seq 0 nx)) eqn:Ex2.
    + apply existsb_exists in Ex2. destruct Ex2 as [i [Hi Hcell]].
      apply in_seq in Hj. apply in_seq in Hi.
      exists j, i. repeat split; try lia.
      unfold in_range in Hcell. destruct (get2 a j i); [discriminate|reflexivity].
    + exfalso. rewrite <- Hrow in Ex2. clear - Ex2.
      induction (seq 0 nx) as [|i l IH]; simpl in *; [discriminate|].
      destruct (in_range a j i); simpl in *; [auto | discriminate].
  - exfalso. clear Hall. revert H Ex.
    induction (seq 0 ny) as [|j l IH]; simpl; [discriminate|].
    destruct (forallb (fun i => in_range a j i) (seq 0 nx)); simpl; auto.
    discriminate.
Qed.

Lemma has_shape_covers {A : Type} (a : array A) (ny nx : nat) :
  has_shape a ny nx = true -> covers a ny nx = true.
Proof.
  unfold has_shape, covers. intros H.
  apply andb_true_iff in H. destruct H as [Hlen Hrows].
  apply Nat.eqb_eq in Hlen. rewrite forallb_forall in Hrows.
  apply forallb_forall. intros j Hj. apply forallb_forall. intros i Hi.
  apply in_seq in Hj. apply in_seq in Hi.
  unfold in_range, get2.
  destruct (nth_error a j) as [row|] eqn:Ej.
  - assert (Hrow := Hrows row (nth_error_In a j Ej)).
    apply Nat.eqb_eq in Hrow.
    destruct (nth_error row i) eqn:Ei; [reflexivity|].
    apply nth_error_None in Ei. lia.
  - apply nth_error_None in Ej. lia.
Qed.

(** ** The loops *)

Lemma for_range_pure {S : Type} (l : list nat) (body : nat -> S -> result S)
    (f : S -> nat -> S) :
  (forall k s, In k l -> body k s = Ok (f s k)) ->
  forall s, for_range l body s = Ok (fold_left f l s).
Proof.
  induction l as [|k l IH]; intros Hbody s; simpl.
  - reflexivity.
  - rewrite Hbody by (left; reflexivity). simpl.
    apply IH. intros k' s' Hin. apply Hbody. right. exact Hin.
Qed.

Lemma fold_left_flat_map {A B S : Type} (f : S -> B -> S) (g : A -> list B)
    (l : list A) (s : S) :
  fold_left f (flat_map g l) s = fold_left (fun s a => fold_left f (g a) s) l s.
Proof.
  revert s. induction l as [|a l IH]; intros s; simpl.
  - reflexivity.
  - rewrite fold_left_app. apply IH.
Qed.

Lemma fold_left_map {A B S : Type} (f : S -> B -> S) (g : A -> B)
    (l : list A) (s : S) :
  fold_left f (map g l) s = fold_left (fun s a => f s (g a)) l s.
Proof.
  revert s. induction l as [|a l IH]; intros s; simpl.
  - reflexivity.
  - apply IH.
Qed.

Lemma fold_left_filter {A S : Type} (f : S -> A -> S) (keep : A -> bool)
    (l : list A) (s : S) :
  fold_left (fun s a => if keep a then f s a else s) l s
  = fold_left f (filter keep l) s.
Proof.
  revert s. induction l as [|a l IH]; intros s; simpl.
  - reflexivity.
  - destruct (keep a); simpl; apply IH.
Qed.

Lemma in_all_pixels (ny nx j i : nat) :
  In (j, i) (all_pixels ny nx) <-> (j < ny)%nat /\ (i < nx)%nat.
Proof.
  unfold all_pixels. rewrite in_flat_map. split.
  - intros [j' [Hj Hin]]. apply in_map_iff in Hin.
    destruct Hin as [i' [Heq Hi]]. inversion Heq; subst.
    apply in_seq in Hj. apply in_seq in Hi. lia.
  - intros [Hj Hi]. exists j. split.
    + apply in_seq. lia.
    + apply in_map. apply in_seq. lia.
Qed.

Lemma length_all_pixels (ny nx : nat) :
  length (all_pixels ny nx) = (ny * nx)%nat.
Proof.
  unfold all_pixels.
  generalize 0%nat at 2. induction ny as [|ny IH]; intros start; simpl.
  - reflexivity.
  - rewrite length_app, length_map, length_seq, IH. reflexivity.
Qed.

Section Loop.

Context {num : Type} {ops : Arith num}.
Variables (bz bz_err : array num) (conf_disambig bitmap : array Z).
Variables (nx ny : nat).
Hypothesis Hbz : covers bz ny nx = true.
Hypothesis Herr : covers bz_err ny nx = true.
Hypothesis Hconf : covers conf_disambig ny nx = true.
Hypothesis Hbitmap : covers bitmap ny nx = true.

Lemma pixel_step_valid (j i : nat) (st : acc) :
  (j < ny)%nat -> (i < nx)%nat ->
  pixel_step bz bz_err conf_disambig bitmap j i st
  = Ok (if valid bz conf_disambig bitmap (j, i) then add_pixel bz bz_err st (j, i)
        else st).
Proof.
  intros Hj Hi. unfold pixel_step, valid.
  rewrite (covers_get2 0%Z conf_disambig ny nx j i Hconf Hj Hi). simpl.
  destruct (Z.ltb_spec (px 0%Z conf_disambig (j, i)) 70) as [Hc|Hc].
  - simpl. replace (70 <=? _)%Z with false by (symmetry; apply Z.leb_gt; lia).
    rewrite andb_false_r. reflexivity.
  - rewrite (covers_get2 0%Z bitmap ny nx j i Hbitmap Hj Hi). simpl.
    replace (70 <=? _)%Z with true by (symmetry; apply Z.leb_le; lia).
    destruct (Z.ltb_spec (px 0%Z bitmap (j, i)) 30) as [Hb|Hb].
    + replace (30 <=? _)%Z with false by (symmetry; apply Z.leb_gt; lia).
      reflexivity.
    + replace (30 <=? _)%Z with true by (symmetry; apply Z.leb_le; lia).
      rewrite (covers_get2 nzero bz ny nx j i Hbz Hj Hi). simpl.
      destruct (nisnan (px nzero bz (j, i))); simpl.
      * reflexivity.
      * rewrite (covers_get2 nzero bz_err ny nx j i Herr Hj Hi). reflexivity.
Qed.

Lemma flux_loop_valid :
  flux_loop bz bz_err conf_disambig bitmap nx ny
  = Ok (fold_left (add_pixel bz bz_err) (valid_pixels bz conf_disambig bitmap ny nx) acc0).
Proof.
  unfold flux_loop, valid_pixels.
  rewrite <- fold_left_filter. unfold all_pixels.
  rewrite fold_left_flat_map.
  apply for_range_pure. intros j s Hj. apply in_seq in Hj.
  rewrite fold_left_map.
  apply for_range_pure. intros i s' Hi. apply in_seq in Hi.
  apply pixel_step_valid; lia.
Qed.

Lemma fold_add_pixel (ps : list (nat * nat)) (st : acc) :
  fold_left (add_pixel bz bz_err) ps st
  = mkAcc (count_mask st + Z.of_nat (length ps))
      (fold_left (fun s p => nadd s (nabs (px nzero bz p))) ps (sum st))
      (fold_left (fun s p => nadd s (nmul (px nzero bz_err p)
                                          (px nzero bz_err p))) ps (err st)).
Proof.
  revert st. induction ps as [|p ps IH]; intros st.
  - simpl. destruct st. simpl. f_equal. lia.
  - simpl fold_left. rewrite IH. simpl. f_equal.
    rewrite Zpos_P_of_succ_nat. lia.
Qed.

(** On arrays that hold every pixel of the [ny] by [nx] grid the program
    returns the keyword triple aggregated over the valid pixels. *)
Lemma compute_abs_flux_dask_valid (rsun_ref rsun_obs cdelt1_arcsec : num) :
  compute_abs_flux_dask bz bz_err conf_disambig bitmap nx ny
    rsun_ref rsun_obs cdelt1_arcsec
  = Ok (flux_over bz bz_err rsun_ref rsun_obs cdelt1_arcsec
          (valid_pixels bz conf_disambig bitmap ny nx)).
Proof.
  unfold compute_abs_flux_dask. rewrite flux_loop_valid. simpl.
  rewrite fold_add_pixel. reflexivity.
Qed.

End Loop.

(** ** The pixel grid *)

Lemma nodup_row (j : nat) (l : list nat) :
  NoDup l -> NoDup (map (pair j) l).
Proof.
  induction 1 as [|i l Hnotin Hnd IH]; simpl; constructor.
  - intros Hin. apply in_map_iff in Hin. destruct Hin as [i' [Heq Hin]].
    inversion Heq; subst. contradiction.
  - exact IH.
Qed.

Lemma nodup_all_pixels (ny nx : nat) : NoDup (all_pixels ny nx).
Proof.
  unfold all_pixels.
  assert (G : forall l, NoDup l ->
            NoDup (flat_map (fun j : nat => map (pair j) (seq 0 nx)) l)).
  { induction l as [|j l IH]; intros Hnd; simpl.
    - constructor.
    - apply NoDup_cons_iff in Hnd. destruct Hnd as [Hnotin Hnd].
      apply NoDup_app.
      + apply nodup_row, seq_NoDup.
      + apply IH. exact Hnd.
      + intros [j' i'] Hin1 Hin2.
        apply in_map_iff in Hin1. destruct Hin1 as [i0 [Heq _]].
        inversion Heq; subst.
        apply in_flat_map in Hin2. destruct Hin2 as [j0 [Hj0 Hin2]].
        apply in_map_iff in Hin2. destruct Hin2 as [i1 [Heq1 _]].
        inversion Heq1; subst. contradiction. }
  apply G. apply seq_NoDup.
Qed.

Lemma same_pixel_eq (p q : nat * nat) : same_pixel p q = true <-> p = q.
Proof.
  destruct p as [j i], q as [j' i']. unfold same_pixel; simpl.
  rewrite andb_true_iff, !Nat.eqb_eq. split.
  - intros [-> ->]. reflexivity.
  - intros H. inversion H. split; reflexivity.
Qed.

Lemma filter_filter_implied {A : Type} (f g : A -> bool) (l : list A) :
  (forall x, In x l -> f x = true -> g x = true) ->
  filter f (filter g l) = filter f l.
Proof.
  induction l as [|x l IH]; intros H; simpl.
  - reflexivity.
  - destruct (g x) eqn:Eg; simpl.
    + destruct (f x); rewrite IH; auto using in_cons.
    + destruct (f x) eqn:Ef.
      * rewrite (H x (in_eq x l) Ef) in Eg. discriminate.
      * apply IH. auto using in_cons.
Qed.

Lemma filter_all {A : Type} (f : A -> bool) (l : list A) :
  (forall x, In x l -> f x = true) -> filter f l = l.
Proof.
  induction l as [|x l IH]; intros H; simpl.
  - reflexivity.
  - rewrite (H x (in_eq x l)). f_equal. apply IH. auto using in_cons.
Qed.

(** ** Exceptions of the loops *)

Lemma for_range_raises {S : Type} (l : list nat)
    (body : nat -> S -> result S) (k : nat) :
  In k l -> (forall s, body k s = IndexError) ->
  forall s, for_range l body s = IndexError.
Proof.
  induction l as [|k' l IH]; intros Hin Hk s; simpl.
  - contradiction.
  - destruct Hin as [->|Hin].
    + rewrite Hk. reflexivity.
    + destruct (body k' s) as [s'|]; simpl; [|reflexivity].
      apply IH; assumption.
Qed.

Lemma for_range_ext {S : Type} (l : list nat)
    (body body' : nat -> S -> result S) :
  (forall k s, body k s = body' k s) ->
  forall s, for_range l body s = for_range l body' s.
Proof.
  intros Hext. induction l as [|k l IH]; intros s; simpl.
  - reflexivity.
  - rewrite Hext. destruct (body' k s); simpl; [apply IH | reflexivity].
Qed.

(** The confidence map is read first at every pixel: when it lacks a
    pixel of the grid, the call ends in an [IndexError]. *)
Lemma compute_abs_flux_dask_index_error {num : Type} {ops : Arith num}
    (bz bz_err : array num) (conf_disambig bitmap : array Z) (nx ny : nat)
    (rsun_ref rsun_obs cdelt1_arcsec : num) :
  covers conf_disambig ny nx = false ->
  compute_abs_flux_dask bz bz_err conf_disambig bitmap nx ny
    rsun_ref rsun_obs cdelt1_arcsec = IndexError.
Proof.
  intros H. apply not_covers_index_error in H.
  destruct H as [j [i [Hj [Hi Hget]]]].
  unfold compute_abs_flux_dask, flux_loop.
  rewrite (for_range_raises (seq 0 ny) _ j); [reflexivity | apply in_seq; lia |].
  intros s. apply (for_range_raises (seq 0 nx) _ i); [apply in_seq; lia |].
  intros s'. unfold pixel_step. rewrite Hget. reflexivity.
Qed.

(** ** A sign flip of the field *)

Lemma get2_map {A B : Type} (f : A -> B) (a : array A) (j i : nat) :
  get2 (map (map f) a) j i = x <- get2 a j i ;; Ok (f x).
Proof.
  unfold get2. rewrite nth_error_map.
  destruct (nth_error a j) as [row|]; simpl; [|reflexivity].
  rewrite nth_error_map. destruct (nth_error row i); reflexivity.
Qed.

Section SignFlip.

Context {num : Type} {ops : Arith num}.
Variable neg : num -> num.
Hypothesis nabs_neg : forall x, nabs (neg x) = nabs x.
Hypothesis nisnan_neg : forall x, nisnan (neg x) = nisnan x.

Lemma pixel_step_negated (bz bz_err : array num)
    (conf_disambig bitmap : array Z) (j i : nat) (st : acc) :
  pixel_step (negated neg bz) bz_err conf_disambig bitmap j i st
  = pixel_step bz bz_err conf_disambig bitmap j i st.
Proof.
  unfold pixel_step, negated. rewrite get2_map.
  destruct (get2 conf_disambig j i) as [c|]; simpl; [|reflexivity].
  destruct (if (c <? 70)%Z then Ok true
            else b <- get2 bitmap j i ;; Ok (b <? 30)%Z) as [[|]|];
    simpl; try reflexivity.
  destruct (get2 bz j i) as [z|]; simpl; [|reflexivity].
  rewrite nisnan_neg, nabs_neg. reflexivity.
Qed.

Lemma compute_abs_flux_dask_negated (bz bz_err : array num)
    (conf_disambig bitmap : array Z) (nx ny : nat)
    (rsun_ref rsun_obs cdelt1_arcsec : num) :
  compute_abs_flux_dask (negated neg bz) bz_err conf_disambig bitmap nx ny
    rsun_ref rsun_obs cdelt1_arcsec
  = compute_abs_flux_dask bz bz_err conf_disambig bitmap nx ny
      rsun_ref rsun_obs cdelt1_arcsec.
Proof.
  unfold compute_abs_flux_dask, flux_loop. f_equal.
  apply for_range_ext. intros j s.
  apply for_range_ext. intros i s'.
  apply pixel_step_negated.
Qed.

End SignFlip.

(** ** IEEE 754 double precision: negation *)

Lemma float_abs_opp (x : float) :
  PrimFloat.abs (PrimFloat.opp x) = PrimFloat.abs x.
Proof.
  apply Prim2SF_inj. rewrite !abs_spec, opp_spec.
  destruct (Prim2SF x); reflexivity.
Qed.

Lemma float_is_nan_opp (x : float) :
  PrimFloat.is_nan (PrimFloat.opp x) = PrimFloat.is_nan x.
Proof.
  unfold PrimFloat.is_nan. rewrite !eqb_spec, opp_spec.
  destruct (Prim2SF x) as [s|s| |s m e]; try reflexivity.
  - destruct s; reflexivity.
  - unfold SFeqb; simpl. rewrite Z.compare_refl.
    change (PosDef.Pos.compare_cont Eq m m) with (Pos.compare m m).
    rewrite Pos.compare_refl. destruct s; reflexivity.
Qed.

(** ** The program, evaluated in double precision *)

Example flux_1x1 :
  compute_abs_flux_dask [[(-2)%float]] [[3%float]] [[90%Z]] [[33%Z]] 1 1
    1%float 1%float 1%float = Ok (20000%float, 30000%float, 1%Z).
Proof. vm_compute. reflexivity. Qed.

(** a row shorter than [nx]: the access raises *)
Example flux_short_row :
  compute_abs_flux_dask [[1%float]] [[1%float; 1%float]] [[90; 90]]%Z
    [[33; 33]]%Z 2 1 1%float 1%float 1%float = IndexError.
Proof. vm_compute. reflexivity. Qed.

(** the same row is never read when the mask rejects the pixel *)
Example flux_short_row_masked :
  compute_abs_flux_dask [[1%float]] [[1%float; 1%float]] [[90; 69]]%Z
    [[33; 33]]%Z 2 1 1%float 1%float 1%float
  = Ok (10000%float, 10000%float, 1%Z).
Proof. vm_compute. reflexivity. Qed.

(** ** The validity mask *)

Lemma in_valid_pixels {num : Type} {ops : Arith num} (bz : array num)
    (conf_disambig bitmap : array Z) (ny nx j i : nat) :
  In (j, i) (valid_pixels bz conf_disambig bitmap ny nx) <->
  (j < ny)%nat /\ (i < nx)%nat /\
  (30 <= px 0%Z bitmap (j, i))%Z /\
  (70 <= px 0%Z conf_disambig (j, i))%Z /\
  nisnan (px nzero bz (j, i)) = false.
Proof.
  unfold valid_pixels, valid. rewrite filter_In, in_all_pixels.
  rewrite !andb_true_iff, !Z.leb_le, negb_true_iff. tauto.
Qed.

(** C3. On same-shape inputs the program returns the keyword triple
    aggregated over the valid pixels, its count is their number, no pixel
    is listed twice, and a pixel of the grid is valid if and only if its
    bitmap value is at least 30, its disambiguation confidence is at
    least 70 and its field value is not nan. *)
Theorem valid_iff_region_confidence_not_nan {num : Type} {ops : Arith num}
    (bz bz_err : array num) (conf_disambig bitmap : array Z) (nx ny : nat)
    (rsun_ref rsun_obs cdelt1_arcsec : num) :
  has_shape bz ny nx = true ->
  has_shape bz_err ny nx = true ->
  has_shape conf_disambig ny nx = true ->
  has_shape bitmap ny nx = true ->
  compute_abs_flux_dask bz bz_err conf_disambig bitmap nx ny
    rsun_ref rsun_obs cdelt1_arcsec
  = Ok (flux_over bz bz_err rsun_ref rsun_obs cdelt1_arcsec
          (valid_pixels bz conf_disambig bitmap ny nx))
  /\ snd (flux_over bz bz_err rsun_ref rsun_obs cdelt1_arcsec
            (valid_pixels bz conf_disambig bitmap ny nx))
     = Z.of_nat (length (valid_pixels bz conf_disambig bitmap ny nx))
  /\ NoDup (valid_pixels bz conf_disambig bitmap ny nx)
  /\ forall j i,
       In (j, i) (valid_pixels bz conf_disambig bitmap ny nx) <->
       (j < ny)%nat /\ (i < nx)%nat /\
       (30 <= px 0%Z bitmap (j, i))%Z /\
       (70 <= px 0%Z conf_disambig (j, i))%Z /\
       nisnan (px nzero bz (j, i)) = false.
Proof.
  intros Hbz Herr Hconf Hbitmap. split; [|split; [|split]].
  - apply compute_abs_flux_dask_valid; apply has_shape_covers; assumption.
  - reflexivity.
  - apply NoDup_filter, nodup_all_pixels.
  - intros j i. apply in_valid_pixels.
Qed.

Lemma valid_iff_region_confidence_not_nan_witness :
  compute_abs_flux_dask
    [[1%float; nan]; [(-3)%float; 4%float]]
    [[1%float; 1%float]; [2%float; 1%float]]
    [[90; 90]; [70; 69]]%Z [[33; 33]; [30; 33]]%Z 2 2
    1%float 1%float 1%float
  = Ok (flux_over
          [[1%float; nan]; [(-3)%float; 4%float]]
          [[1%float; 1%float]; [2%float; 1%float]]
          1%float 1%float 1%float
          (valid_pixels [[1%float; nan]; [(-3)%float; 4%float]]
             [[90; 90]; [70; 69]]%Z [[33; 33]; [30; 33]]%Z 2 2)).
Proof.
  apply (proj1 (valid_iff_region_confidence_not_nan
           [[1%float; nan]; [(-3)%float; 4%float]]
           [[1%float; 1%float]; [2%float; 1%float]]
           [[90; 90]; [70; 69]]%Z [[33; 33]; [30; 33]]%Z 2 2
           1%float 1%float 1%float
           eq_refl eq_refl eq_refl eq_refl)).
Defined.

(** C6. Replacing every field value by its negation changes none of the
    three outputs (nor whether the call raises), in double precision. *)
Theorem unsigned_flux_ignores_sign (bz bz_err : array float)
    (conf_disambig bitmap : array Z) (nx ny : nat)
    (rsun_ref rsun_obs cdelt1_arcsec : float) :
  compute_abs_flux_dask (negated PrimFloat.opp bz) bz_err conf_disambig
    bitmap nx ny rsun_ref rsun_obs cdelt1_arcsec
  = compute_abs_flux_dask bz bz_err conf_disambig bitmap nx ny
      rsun_ref rsun_obs cdelt1_arcsec.
Proof.
  apply (compute_abs_flux_dask_negated (ops := binary64) PrimFloat.opp
           float_abs_opp float_is_nan_opp).
Qed.

(** ** Pixels that hold nan or an infinity *)

(** C8, as stated, fails: a nan in the error map at a pixel that passes
    both thresholds and whose field value is a number is not excluded.
    The pixel is counted, and the returned error is nan. *)
Lemma nan_error_pixel_is_aggregated :
  valid [[2%float; 1%float]] [[90; 90]]%Z [[33; 33]]%Z (0, 1)%nat = true
  /\ PrimFloat.is_nan (px 0%float [[1%float; nan]] (0, 1)%nat) = true
  /\ compute_abs_flux_dask [[2%float; 1%float]] [[1%float; nan]]
       [[90; 90]]%Z [[33; 33]]%Z 2 1 1%float 1%float 1%float
     = Ok (30000%float, nan, 2%Z)
  /\ flux_over [[2%float; 1%float]] [[1%float; nan]] 1%float 1%float 1%float
       (without (0, 1)%nat
          (valid_pixels [[2%float; 1%float]] [[90; 90]]%Z [[33; 33]]%Z 1 2))
     = (20000%float, 10000%float, 1%Z)
  /\ compute_abs_flux_dask [[2%float; 1%float]] [[1%float; nan]]
       [[90; 90]]%Z [[33; 33]]%Z 2 1 1%float 1%float 1%float
     <> Ok (flux_over [[2%float; 1%float]] [[1%float; nan]]
              1%float 1%float 1%float
              (without (0, 1)%nat
                 (valid_pixels [[2%float; 1%float]] [[90; 90]]%Z
                    [[33; 33]]%Z 1 2))).
Proof.
  repeat split; try (vm_compute; reflexivity).
  vm_compute. intros H. inversion H.
Qed.

(** C8, amended. A pixel whose field value is nan is excluded, whatever
    its error, confidence and bitmap values are: it is not a valid pixel,
    and the returned triple is the one aggregated over the valid pixels of
    the grid without it. *)
Theorem nan_field_pixel_is_excluded {num : Type} {ops : Arith num}
    (bz bz_err : array num) (conf_disambig bitmap : array Z) (nx ny : nat)
    (rsun_ref rsun_obs cdelt1_arcsec : num) (j0 i0 : nat) :
  has_shape bz ny nx = true ->
  has_shape bz_err ny nx = true ->
  has_shape conf_disambig ny nx = true ->
  has_shape bitmap ny nx = true ->
  nisnan (px nzero bz (j0, i0)) = true ->
  ~ In (j0, i0) (valid_pixels bz conf_disambig bitmap ny nx)
  /\ compute_abs_flux_dask bz bz_err conf_disambig bitmap nx ny
       rsun_ref rsun_obs cdelt1_arcsec
     = Ok (flux_over bz bz_err rsun_ref rsun_obs cdelt1_arcsec
             (filter (valid bz conf_disambig bitmap)
                (without (j0, i0) (all_pixels ny nx)))).
Proof.
  intros Hbz Herr Hconf Hbitmap Hnan. split.
  - rewrite in_valid_pixels. intros [_ [_ [_ [_ H]]]]. congruence.
  - rewrite (compute_abs_flux_dask_valid bz bz_err conf_disambig bitmap)
      by (apply has_shape_covers; assumption).
    unfold valid_pixels, without. rewrite filter_filter_implied; [reflexivity|].
    intros p _ Hvalid. apply negb_true_iff.
    destruct (same_pixel p (j0, i0)) eqn:E; [|reflexivity].
    apply same_pixel_eq in E. subst p.
    unfold valid in Hvalid. rewrite Hnan in Hvalid.
    rewrite andb_false_r in Hvalid. discriminate.
Qed.

Lemma nan_field_pixel_is_excluded_witness :
  ~ In (0, 1)%nat
      (valid_pixels [[2%float; nan]] [[90; 90]]%Z [[33; 33]]%Z 1 2)
  /\ compute_abs_flux_dask [[2%float; nan]] [[1%float; infinity]]
       [[90; 90]]%Z [[33; 33]]%Z 2 1 1%float 1%float 1%float
     = Ok (flux_over [[2%float; nan]] [[1%float; infinity]]
             1%float 1%float 1%float
             (filter (valid [[2%float; nan]] [[90; 90]]%Z [[33; 33]]%Z)
                (without (0, 1)%nat (all_pixels 1 2)))).
Proof.
  apply (nan_field_pixel_is_excluded
           [[2%float; nan]] [[1%float; infinity]]
           [[90; 90]]%Z [[33; 33]]%Z 2 1 1%float 1%float 1%float 0 1);
    reflexivity.
Defined.

(** ** Arrays of different shapes *)

(** C9, as stated, fails: with a 1 by 1 field and a 2 by 2 bitmap the call
    returns a keyword triple. *)
Lemma mismatched_shapes_return_a_triple :
  has_shape [[5%float]] 1 1 = true
  /\ has_shape [[33; 0]; [0; 0]]%Z 2 2 = true
  /\ has_shape [[33; 0]; [0; 0]]%Z 1 1 = false
  /\ compute_abs_flux_dask [[5%float]] [[1%float]] [[90%Z]]
       [[33; 0]; [0; 0]]%Z 1 1 1%float 1%float 1%float
     = Ok (50000%float, 10000%float, 1%Z).
Proof. repeat split; vm_compute; reflexivity. Qed.

(** C9, amended. The program compares no shapes.  Whenever each of the
    four arrays holds every pixel of the [ny] by [nx] grid the loops
    visit, whatever the shapes are, it returns the keyword triple
    aggregated over the valid pixels of that grid. *)
Theorem shapes_are_not_compared {num : Type} {ops : Arith num}
    (bz bz_err : array num) (conf_disambig bitmap : array Z) (nx ny : nat)
    (rsun_ref rsun_obs cdelt1_arcsec : num) :
  covers bz ny nx = true ->
  covers bz_err ny nx = true ->
  covers conf_disambig ny nx = true ->
  covers bitmap ny nx = true ->
  compute_abs_flux_dask bz bz_err conf_disambig bitmap nx ny
    rsun_ref rsun_obs cdelt1_arcsec
  = Ok (flux_over bz bz_err rsun_ref rsun_obs cdelt1_arcsec
          (valid_pixels bz conf_disambig bitmap ny nx)).
Proof. intros. apply compute_abs_flux_dask_valid; assumption. Qed.

Lemma shapes_are_not_compared_witness :
  compute_abs_flux_dask [[5%float]] [[1%float; 7%float]] [[90%Z]; [0%Z]]
    [[33; 0]; [0; 0]]%Z 1 1 1%float 1%float 1%float
  = Ok (flux_over [[5%float]] [[1%float; 7%float]] 1%float 1%float 1%float
          (valid_pixels [[5%float]] [[90%Z]; [0%Z]] [[33; 0]; [0; 0]]%Z 1 1)).
Proof.
  apply (shapes_are_not_compared [[5%float]] [[1%float; 7%float]]
           [[90%Z]; [0%Z]] [[33; 0]; [0; 0]]%Z 1 1
           1%float 1%float 1%float); reflexivity.
Defined.

(** ** No valid pixel *)

(** C4, as stated, fails: on a patch without a valid pixel the program
    returns the number 0.0 as value and as error, not nan. *)
Lemma empty_mask_returns_zero :
  valid_pixels [[5%float; nan]] [[10; 90]]%Z [[33; 33]]%Z 1 2 = []
  /\ compute_abs_flux_dask [[5%float; nan]] [[1%float; 1%float]]
       [[10; 90]]%Z [[33; 33]]%Z 2 1 1%float 1%float 1%float
     = Ok (0%float, 0%float, 0%Z)
  /\ PrimFloat.is_nan 0%float = false
  /\ (0%float =? 0%float)%float = true.
Proof. repeat split; vm_compute; reflexivity. Qed.

(** ** Signs of value and error *)

(** C10, as stated, fails: with finite array entries and the solar radii
    both 0.0 the quotient rsun_ref/rsun_obs of numpy scalars is nan, and
    value and error are nan, which are not [>= 0].  (On Python floats the
    same division raises ZeroDivisionError: no triple is returned.) *)
Lemma zero_radius_gives_nan :
  compute_abs_flux_dask [[5%float]] [[1%float]] [[90%Z]] [[33%Z]] 1 1
    0%float 0%float 1%float
  = Ok (nan, nan, 1%Z)
  /\ (0%float <=? nan)%float = false.
Proof. split; vm_compute; reflexivity. Qed.

(** In double precision a sum of finite values can overflow to an
    infinity, and infinity times 0.0 is nan: finite entries and finite
    scalars with rsun_obs not zero do not exclude a nan value. *)
Example overflow_gives_nan :
  compute_abs_flux_dask [[0x1p1023%float; 0x1p1023%float]]
    [[1%float; 1%float]] [[90; 90]]%Z [[33; 33]]%Z 2 1
    1%float 1%float 0%float
  = Ok (nan, 0%float, 2%Z).
Proof. vm_compute. reflexivity. Qed.

Open Scope float_scope.

(** * Double precision *)

(** ** Signs and finiteness of the IEEE operations *)

Lemma binary_round_aux_sign (s : bool) (m e : Z) (l : location) :
  has_sign s (binary_round_aux prec emax s m e l).
Proof.
  unfold binary_round_aux.
  destruct (shr_fexp prec emax m e l) as [mrs e'].
  destruct (shr_fexp prec emax _ e' loc_Exact) as [mrs' e''].
  destruct (shr_m mrs'); simpl; try reflexivity.
  destruct (Z.leb e'' _); reflexivity.
Qed.

Lemma binary_round_sign (s : bool) (m : positive) (e : Z) :
  has_sign s (binary_round prec emax s m e).
Proof.
  unfold binary_round.
  destruct (shl_align m e _) as [mz ez].
  apply binary_round_aux_sign.
Qed.

Lemma SFmul_sign (s t : bool) (x y : spec_float) :
  has_sign s x -> has_sign t y -> has_sign (xorb s t) (SF64mul x y).
Proof.
  destruct x, y; simpl; intros; subst; try reflexivity; try exact I.
  apply binary_round_aux_sign.
Qed.

Lemma SFadd_nonneg (x y : spec_float) :
  has_sign false x -> has_sign false y -> has_sign false (SF64add x y).
Proof.
  destruct x as [s|s| |s m e], y as [t|t| |t m' e']; simpl; intros; subst;
    try reflexivity; try exact I.
  apply binary_round_sign.
Qed.

Lemma SFsqrt_nonneg (x : spec_float) :
  has_sign false x -> has_sign false (SF64sqrt x).
Proof.
  destruct x; simpl; intros; subst; try reflexivity; try exact I.
  destruct (SFsqrt_core_binary prec emax (Zpos m) e) as [[mz ez] lz].
  apply binary_round_aux_sign.
Qed.

Lemma SFabs_nonneg (x : spec_float) : has_sign false (SFabs x).
Proof. destruct x; simpl; trivial. Qed.

Lemma has_sign_bit (x : spec_float) : has_sign (sign_bit x) x.
Proof. destruct x; simpl; trivial. Qed.

Lemma SFmul_finite_inv (x y : spec_float) :
  sf_finite (SF64mul x y) = true ->
  sf_finite x = true /\ sf_finite y = true.
Proof.
  destruct x, y; simpl; intros H; try discriminate; split; reflexivity.
Qed.

Lemma SFmul_zero_l (s : bool) (y : spec_float) :
  sf_finite y = true ->
  SF64mul (S754_zero s) y = S754_zero (xorb s (sign_bit y)).
Proof. destruct y; simpl; intros H; try discriminate; reflexivity. Qed.

Lemma SFmul_zero_not_finite (s : bool) (y : spec_float) :
  sf_finite y = false -> SF64mul (S754_zero s) y = S754_nan.
Proof. destruct y; simpl; intros H; try discriminate; reflexivity. Qed.

Lemma SFeqb_refl (x : spec_float) :
  SFeqb x x = match x with S754_nan => false | _ => true end.
Proof.
  destruct x as [s|s| |s m e]; try reflexivity.
  - destruct s; reflexivity.
  - unfold SFeqb; simpl. rewrite Z.compare_refl.
    change (PosDef.Pos.compare_cont Eq m m) with (Pos.compare m m).
    rewrite Pos.compare_refl. destruct s; reflexivity.
Qed.

Lemma is_nan_spec (v : float) :
  PrimFloat.is_nan v
  = match Prim2SF v with S754_nan => true | _ => false end.
Proof.
  unfold PrimFloat.is_nan. rewrite eqb_spec, SFeqb_refl.
  destruct (Prim2SF v); reflexivity.
Qed.

Lemma is_finite_spec (v : float) :
  PrimFloat.is_finite v = sf_finite (Prim2SF v).
Proof.
  unfold PrimFloat.is_finite, PrimFloat.is_infinity.
  rewrite is_nan_spec, eqb_spec, abs_spec.
  change (Prim2SF infinity) with (S754_infinity false).
  destruct (Prim2SF v) as [s|s| |s m e]; reflexivity.
Qed.

(** a double whose sign bit is clear is nan or compares [>= 0] *)
Lemma nonneg_or_nan (v : float) :
  has_sign false (Prim2SF v) ->
  PrimFloat.is_nan v = true \/ (0 <=? v)%float = true.
Proof.
  rewrite is_nan_spec, leb_spec.
  change (Prim2SF 0) with (S754_zero false).
  destruct (Prim2SF v) as [s|s| |s m e]; simpl; intros H; subst;
    (left; reflexivity) || (right; reflexivity).
Qed.

Lemma mul_has_sign (s t : bool) (x y : float) :
  has_sign s (Prim2SF x) -> has_sign t (Prim2SF y) ->
  has_sign (xorb s t) (Prim2SF (x * y)).
Proof. intros Hx Hy. rewrite mul_spec. apply SFmul_sign; assumption. Qed.

(** multiplying twice by the same factor gives the sign back *)
Lemma mul_twice_has_sign (s : bool) (x y : float) :
  has_sign s (Prim2SF x) -> has_sign s (Prim2SF (x * y * y)).
Proof.
  intros Hx.
  assert (H := mul_has_sign _ _ _ y
                 (mul_has_sign s _ x y Hx (has_sign_bit (Prim2SF y)))
                 (has_sign_bit (Prim2SF y))).
  rewrite xorb_assoc, xorb_nilpotent, xorb_false_r in H. exact H.
Qed.

Lemma hundred_has_sign : has_sign false (Prim2SF 100).
Proof. reflexivity. Qed.

Lemma mul_hundred_has_sign (s : bool) (x : float) :
  has_sign s (Prim2SF x) -> has_sign s (Prim2SF (x * 100)).
Proof.
  intros Hx. assert (H := mul_has_sign s false x 100 Hx hundred_has_sign).
  rewrite xorb_false_r in H. exact H.
Qed.

Lemma scale_has_sign (s : bool) (x rsun_ref rsun_obs cdelt1_arcsec : float) :
  has_sign s (Prim2SF x) ->
  has_sign s (Prim2SF (x * cdelt1_arcsec * cdelt1_arcsec
                       * (rsun_ref / rsun_obs) * (rsun_ref / rsun_obs)
                       * 100 * 100)).
Proof.
  intros Hx.
  apply mul_hundred_has_sign, mul_hundred_has_sign.
  apply mul_twice_has_sign, mul_twice_has_sign. exact Hx.
Qed.

Lemma total_abs_has_sign (bz : array float) (ps : list (nat * nat)) :
  has_sign false (Prim2SF (total_abs bz ps)).
Proof.
  unfold total_abs.
  assert (G : forall s0, has_sign false (Prim2SF s0) ->
            has_sign false
              (Prim2SF (fold_left
                          (fun s p => s + PrimFloat.abs (px 0 bz p))
                          ps s0))).
  { induction ps as [|p ps IH]; intros s0 H0; simpl; [exact H0|].
    apply IH. rewrite add_spec, abs_spec.
    apply SFadd_nonneg; [exact H0 | apply SFabs_nonneg]. }
  apply G. reflexivity.
Qed.

Lemma total_sq_err_has_sign (bz_err : array float) (ps : list (nat * nat)) :
  has_sign false (Prim2SF (total_sq_err bz_err ps)).
Proof.
  unfold total_sq_err.
  assert (G : forall s0, has_sign false (Prim2SF s0) ->
            has_sign false
              (Prim2SF (fold_left
                          (fun s p => s + px 0 bz_err p * px 0 bz_err p)
                          ps s0))).
  { induction ps as [|p ps IH]; intros s0 H0; simpl; [exact H0|].
    apply IH. rewrite add_spec. apply SFadd_nonneg; [exact H0|].
    assert (H := mul_has_sign _ _ _ _
                   (has_sign_bit (Prim2SF (px 0 bz_err p)))
                   (has_sign_bit (Prim2SF (px 0 bz_err p)))).
    rewrite xorb_nilpotent in H. exact H. }
  apply G. reflexivity.
Qed.

(** ** The keyword in double precision *)

(** the program on same-shape arrays, written with the IEEE operations *)
Lemma compute_abs_flux_dask_binary64 (bz bz_err : array float)
    (conf_disambig bitmap : array Z) (nx ny : nat)
    (rsun_ref rsun_obs cdelt1_arcsec : float) :
  covers bz ny nx = true -> covers bz_err ny nx = true ->
  covers conf_disambig ny nx = true -> covers bitmap ny nx = true ->
  compute_abs_flux_dask bz bz_err conf_disambig bitmap nx ny
    rsun_ref rsun_obs cdelt1_arcsec
  = Ok (total_abs bz (valid_pixels bz conf_disambig bitmap ny nx)
        * cdelt1_arcsec * cdelt1_arcsec
        * (rsun_ref / rsun_obs) * (rsun_ref / rsun_obs) * 100 * 100,
        PrimFloat.sqrt
          (total_sq_err bz_err (valid_pixels bz conf_disambig bitmap ny nx))
        * PrimFloat.abs (cdelt1_arcsec * cdelt1_arcsec
                         * (rsun_ref / rsun_obs) * (rsun_ref / rsun_obs)
                         * 100 * 100),
        Z.of_nat (length (valid_pixels bz conf_disambig bitmap ny nx))).
Proof.
  intros Hbz Herr Hconf Hbitmap.
  rewrite (compute_abs_flux_dask_valid bz bz_err conf_disambig bitmap)
    by assumption.
  reflexivity.
Qed.

(** C1. On same-shape inputs, in double precision, the returned value is
    the sum of |bz[j,i]| over the valid pixels, added row by row,
    multiplied by cdelt1_arcsec, cdelt1_arcsec, rsun_ref/rsun_obs,
    rsun_ref/rsun_obs, 100 and 100, and the valid pixels are exactly those
    of the grid with bitmap >= 30, conf_disambig >= 70 and bz not nan. *)
Theorem value_is_sum_of_abs_times_area (bz bz_err : array float)
    (conf_disambig bitmap : array Z) (nx ny : nat)
    (rsun_ref rsun_obs cdelt1_arcsec : float) :
  has_shape bz ny nx = true ->
  has_shape bz_err ny nx = true ->
  has_shape conf_disambig ny nx = true ->
  has_shape bitmap ny nx = true ->
  (exists mean_vf_err count_mask,
     compute_abs_flux_dask bz bz_err conf_disambig bitmap nx ny
       rsun_ref rsun_obs cdelt1_arcsec
     = Ok (total_abs bz (valid_pixels bz conf_disambig bitmap ny nx)
           * cdelt1_arcsec * cdelt1_arcsec
           * (rsun_ref / rsun_obs) * (rsun_ref / rsun_obs) * 100 * 100,
           mean_vf_err, count_mask))
  /\ forall j i,
       In (j, i) (valid_pixels bz conf_disambig bitmap ny nx) <->
       (j < ny)%nat /\ (i < nx)%nat /\
       (30 <= px 0%Z bitmap (j, i))%Z /\
       (70 <= px 0%Z conf_disambig (j, i))%Z /\
       PrimFloat.is_nan (px 0 bz (j, i)) = false.
Proof.
  intros Hbz Herr Hconf Hbitmap. split.
  - rewrite compute_abs_flux_dask_binary64
      by (apply has_shape_covers; assumption).
    eexists. eexists. reflexivity.
  - intros j i. apply (in_valid_pixels (ops := binary64)).
Qed.

Lemma value_is_sum_of_abs_times_area_witness :
  (exists mean_vf_err count_mask,
     compute_abs_flux_dask
       [[1; nan]; [-3; 4]] [[1; 1]; [2; 1]]
       [[90; 90]; [70; 69]]%Z [[33; 33]; [30; 33]]%Z 2 2 2 3 5
     = Ok (total_abs [[1; nan]; [-3; 4]]
             (valid_pixels [[1; nan]; [-3; 4]] [[90; 90]; [70; 69]]%Z
                [[33; 33]; [30; 33]]%Z 2 2)
           * 5 * 5 * (2 / 3) * (2 / 3) * 100 * 100,
           mean_vf_err, count_mask))
  /\ forall j i,
       In (j, i) (valid_pixels [[1; nan]; [-3; 4]] [[90; 90]; [70; 69]]%Z
                    [[33; 33]; [30; 33]]%Z 2 2) <->
       (j < 2)%nat /\ (i < 2)%nat /\
       (30 <= px 0%Z [[33; 33]; [30; 33]]%Z (j, i))%Z /\
       (70 <= px 0%Z [[90; 90]; [70; 69]]%Z (j, i))%Z /\
       PrimFloat.is_nan (px 0 [[1; nan]; [-3; 4]] (j, i)) = false.
Proof.
  apply (value_is_sum_of_abs_times_area
           [[1; nan]; [-3; 4]] [[1; 1]; [2; 1]]
           [[90; 90]; [70; 69]]%Z [[33; 33]; [30; 33]]%Z 2 2 2 3 5);
    reflexivity.
Defined.

(** C2. On same-shape inputs, in double precision, the returned error is
    the square root of the sum of bz_err[j,i]^2 over the valid pixels
    multiplied by the absolute value of the pixel-area factor
    cdelt1_arcsec * cdelt1_arcsec * (rsun_ref/rsun_obs) *
    (rsun_ref/rsun_obs) * 100 * 100; the value and the count are
    aggregated over the same pixels. *)
Theorem error_is_root_sum_square_times_area (bz bz_err : array float)
    (conf_disambig bitmap : array Z) (nx ny : nat)
    (rsun_ref rsun_obs cdelt1_arcsec : float) :
  has_shape bz ny nx = true ->
  has_shape bz_err ny nx = true ->
  has_shape conf_disambig ny nx = true ->
  has_shape bitmap ny nx = true ->
  compute_abs_flux_dask bz bz_err conf_disambig bitmap nx ny
    rsun_ref rsun_obs cdelt1_arcsec
  = Ok (total_abs bz (valid_pixels bz conf_disambig bitmap ny nx)
        * cdelt1_arcsec * cdelt1_arcsec
        * (rsun_ref / rsun_obs) * (rsun_ref / rsun_obs) * 100 * 100,
        PrimFloat.sqrt
          (total_sq_err bz_err (valid_pixels bz conf_disambig bitmap ny nx))
        * PrimFloat.abs (cdelt1_arcsec * cdelt1_arcsec
                         * (rsun_ref / rsun_obs) * (rsun_ref / rsun_obs)
                         * 100 * 100),
        Z.of_nat (length (valid_pixels bz conf_disambig bitmap ny nx))).
Proof.
  intros Hbz Herr Hconf Hbitmap.
  apply compute_abs_flux_dask_binary64; apply has_shape_covers; assumption.
Qed.

Lemma error_is_root_sum_square_times_area_witness :
  compute_abs_flux_dask
    [[1; nan]; [-3; 4]] [[3; 1]; [4; 1]]
    [[90; 90]; [70; 69]]%Z [[33; 33]; [30; 33]]%Z 2 2 2 3 5
  = Ok (total_abs [[1; nan]; [-3; 4]]
          (valid_pixels [[1; nan]; [-3; 4]] [[90; 90]; [70; 69]]%Z
             [[33; 33]; [30; 33]]%Z 2 2)
        * 5 * 5 * (2 / 3) * (2 / 3) * 100 * 100,
        PrimFloat.sqrt
          (total_sq_err [[3; 1]; [4; 1]]
             (valid_pixels [[1; nan]; [-3; 4]] [[90; 90]; [70; 69]]%Z
                [[33; 33]; [30; 33]]%Z 2 2))
        * PrimFloat.abs (5 * 5 * (2 / 3) * (2 / 3) * 100 * 100),
        Z.of_nat (length (valid_pixels [[1; nan]; [-3; 4]]
                            [[90; 90]; [70; 69]]%Z
                            [[33; 33]; [30; 33]]%Z 2 2))).
Proof.
  apply (error_is_root_sum_square_times_area
           [[1; nan]; [-3; 4]] [[3; 1]; [4; 1]]
           [[90; 90]; [70; 69]]%Z [[33; 33]; [30; 33]]%Z 2 2 2 3 5);
    reflexivity.
Defined.

(** the witness evaluated: two valid pixels, |1| + |-3| and 3^2 + 4^2 *)
Example error_witness_evaluated :
  total_abs [[1; nan]; [-3; 4]]
    (valid_pixels [[1; nan]; [-3; 4]] [[90; 90]; [70; 69]]%Z
       [[33; 33]; [30; 33]]%Z 2 2) = 4
  /\ PrimFloat.sqrt
       (total_sq_err [[3; 1]; [4; 1]]
          (valid_pixels [[1; nan]; [-3; 4]] [[90; 90]; [70; 69]]%Z
             [[33; 33]; [30; 33]]%Z 2 2)) = 5.
Proof. split; vm_compute; reflexivity. Qed.

(** ** The constant field *)

Lemma px_repeat {A : Type} (d v : A) (ny nx j i : nat) :
  (j < ny)%nat -> (i < nx)%nat ->
  px d (repeat (repeat v nx) ny) (j, i) = v.
Proof.
  intros Hj Hi. unfold px; simpl.
  rewrite nth_repeat_lt by assumption. apply nth_repeat_lt. assumption.
Qed.

Lemma has_shape_repeat {A : Type} (v : A) (ny nx : nat) :
  has_shape (repeat (repeat v nx) ny) ny nx = true.
Proof.
  unfold has_shape. rewrite repeat_length, Nat.eqb_refl. simpl.
  apply forallb_forall. intros row Hin. apply repeat_spec in Hin. subst row.
  rewrite repeat_length. apply Nat.eqb_refl.
Qed.

Lemma px_forallb {A : Type} (P : A -> bool) (d : A) (a : array A)
    (ny nx j i : nat) :
  has_shape a ny nx = true -> forallb (forallb P) a = true ->
  (j < ny)%nat -> (i < nx)%nat -> P (px d a (j, i)) = true.
Proof.
  unfold has_shape, px; simpl. intros Hshape Hall Hj Hi.
  apply andb_true_iff in Hshape. destruct Hshape as [Hlen Hrows].
  apply Nat.eqb_eq in Hlen. rewrite forallb_forall in Hrows, Hall.
  assert (Hin : In (nth j a []) a) by (apply nth_In; lia).
  specialize (Hrows _ Hin). apply Nat.eqb_eq in Hrows.
  specialize (Hall _ Hin). rewrite forallb_forall in Hall.
  apply Hall. apply nth_In. lia.
Qed.

(** C5, as stated, fails: with rsun_ref = 200000 and rsun_obs =
    cdelt1_arcsec = 21 the pixel-area factor is 4e14 to the last bit, yet
    the value the program returns for the constant field, 1000 multiplied
    by the six factors one after the other, is 3.9999999999999987e17. *)
Lemma rounding_moves_the_constant_field_value :
  (21 * 21 * (200000 / 21) * (200000 / 21) * 100 * 100 = 4e14)
  /\ compute_abs_flux_dask (repeat (repeat 10 10) 10)
       (repeat (repeat 0 10) 10)
       (repeat (repeat 90%Z 10) 10) (repeat (repeat 33%Z 10) 10) 10 10
       200000 21 21
     = Ok (0x1.6345785d89ffep+58, 0, 100%Z)
  /\ (0x1.6345785d89ffep+58 =? 4e17) = false
  /\ (0x1.6345785d89ffep+58 <? 4e17) = true.
Proof. repeat split; vm_compute; reflexivity. Qed.

(** C5, amended. A field constantly 10 over a 10 by 10 patch whose pixels
    are all valid, an error map constantly 0, and the geometry scalars
    rsun_ref = rsun_obs = 1, cdelt1_arcsec = 200000, which give a pixel
    area of 4e14 cm^2 without rounding: the program returns the value
    4e17, the error 0 and the count 100. *)
Theorem constant_field_scenario (conf_disambig bitmap : array Z) :
  has_shape conf_disambig 10 10 = true ->
  has_shape bitmap 10 10 = true ->
  forallb (forallb (fun c => (70 <=? c)%Z)) conf_disambig = true ->
  forallb (forallb (fun b => (30 <=? b)%Z)) bitmap = true ->
  (200000 * 200000 * (1 / 1) * (1 / 1) * 100 * 100 = 4e14)
  /\ compute_abs_flux_dask (repeat (repeat 10 10) 10)
       (repeat (repeat 0 10) 10) conf_disambig bitmap 10 10
       1 1 200000
     = Ok (4e17, 0, 100%Z).
Proof.
  intros Hconf Hbitmap Hc Hb. split; [vm_compute; reflexivity|].
  rewrite (compute_abs_flux_dask_valid _ _ conf_disambig bitmap)
    by (apply has_shape_covers; assumption || apply has_shape_repeat).
  assert (Hall : valid_pixels (repeat (repeat 10 10) 10)
                   conf_disambig bitmap 10 10 = all_pixels 10 10).
  { apply filter_all. intros [j i] Hin. apply in_all_pixels in Hin.
    destruct Hin as [Hj Hi]. unfold valid.
    rewrite (px_forallb _ 0%Z bitmap 10 10 j i Hbitmap Hb Hj Hi).
    rewrite (px_forallb _ 0%Z conf_disambig 10 10 j i Hconf Hc Hj Hi).
    rewrite px_repeat by assumption. reflexivity. }
  rewrite Hall. vm_compute. reflexivity.
Qed.

Lemma constant_field_scenario_witness :
  (200000 * 200000 * (1 / 1) * (1 / 1) * 100 * 100 = 4e14)
  /\ compute_abs_flux_dask (repeat (repeat 10 10) 10)
       (repeat (repeat 0 10) 10)
       (repeat (repeat 90%Z 10) 10) (repeat (repeat 33%Z 10) 10) 10 10
       1 1 200000
     = Ok (4e17, 0, 100%Z).
Proof.
  apply (constant_field_scenario
           (repeat (repeat 90%Z 10) 10) (repeat (repeat 33%Z 10) 10));
    reflexivity.
Defined.

(** ** No valid pixel, in double precision *)

(** C4, amended. On same-shape inputs without a valid pixel the program
    raises nothing and returns the count 0.  Value and error are the
    number 0.0 whenever the pixel-area factor cdelt1_arcsec *
    cdelt1_arcsec * (rsun_ref/rsun_obs) * (rsun_ref/rsun_obs) * 100 * 100
    is finite in double precision; when that factor is an infinity or
    nan, the error is nan. *)
Theorem empty_mask_yields_zero (bz bz_err : array float)
    (conf_disambig bitmap : array Z) (nx ny : nat)
    (rsun_ref rsun_obs cdelt1_arcsec : float) :
  has_shape bz ny nx = true ->
  has_shape bz_err ny nx = true ->
  has_shape conf_disambig ny nx = true ->
  has_shape bitmap ny nx = true ->
  valid_pixels bz conf_disambig bitmap ny nx = [] ->
  exists mean_vf mean_vf_err,
    compute_abs_flux_dask bz bz_err conf_disambig bitmap nx ny
      rsun_ref rsun_obs cdelt1_arcsec
    = Ok (mean_vf, mean_vf_err, 0%Z)
    /\ (PrimFloat.is_finite
          (cdelt1_arcsec * cdelt1_arcsec
           * (rsun_ref / rsun_obs) * (rsun_ref / rsun_obs) * 100 * 100)
        = true ->
        mean_vf = 0 /\ mean_vf_err = 0)
    /\ (PrimFloat.is_finite
          (cdelt1_arcsec * cdelt1_arcsec
           * (rsun_ref / rsun_obs) * (rsun_ref / rsun_obs) * 100 * 100)
        = false ->
        PrimFloat.is_nan mean_vf_err = true).
Proof.
  intros Hbz Herr Hconf Hbitmap Hempty.
  rewrite compute_abs_flux_dask_binary64
    by (apply has_shape_covers; assumption).
  rewrite Hempty. eexists. eexists. split; [reflexivity|].
  change (total_abs bz []) with 0%float.
  change (PrimFloat.sqrt (total_sq_err bz_err [])) with 0%float.
  set (c := cdelt1_arcsec). set (r := (rsun_ref / rsun_obs)%float).
  split.
  - intros Hfin. rewrite is_finite_spec in Hfin.
    assert (Habs : sf_finite (Prim2SF (PrimFloat.abs
                                         (c * c * r * r * 100 * 100)))
                   = true).
    { rewrite abs_spec.
      destruct (Prim2SF (c * c * r * r * 100 * 100));
        try discriminate; reflexivity. }
    rewrite !mul_spec in Hfin.
    destruct (SFmul_finite_inv _ _ Hfin) as [H5 _].
    destruct (SFmul_finite_inv _ _ H5) as [H4 _].
    destruct (SFmul_finite_inv _ _ H4) as [H3 Hr].
    destruct (SFmul_finite_inv _ _ H3) as [H2 _].
    destruct (SFmul_finite_inv _ _ H2) as [Hc _].
    split; apply Prim2SF_inj; change (Prim2SF 0) with (S754_zero false).
    + rewrite !mul_spec. change (Prim2SF 0) with (S754_zero false).
      rewrite !SFmul_zero_l by (assumption || reflexivity).
      f_equal. change (sign_bit (Prim2SF 100)) with false.
      destruct (sign_bit (Prim2SF c)), (sign_bit (Prim2SF r)); reflexivity.
    + rewrite mul_spec. change (Prim2SF 0) with (S754_zero false).
      rewrite SFmul_zero_l by exact Habs.
      f_equal. rewrite abs_spec.
      destruct (Prim2SF (c * c * r * r * 100 * 100)); reflexivity.
  - intros Hfin. rewrite is_finite_spec in Hfin.
    rewrite is_nan_spec, mul_spec. change (Prim2SF 0) with (S754_zero false).
    rewrite SFmul_zero_not_finite; [reflexivity|].
    rewrite abs_spec.
    destruct (Prim2SF (c * c * r * r * 100 * 100));
      try discriminate; reflexivity.
Qed.

Lemma empty_mask_yields_zero_witness :
  exists mean_vf mean_vf_err,
    compute_abs_flux_dask [[5; nan]] [[1; 1]] [[10; 90]]%Z [[33; 33]]%Z 2 1
      6.96e8 950 0.5
    = Ok (mean_vf, mean_vf_err, 0%Z)
    /\ (PrimFloat.is_finite
          (0.5 * 0.5 * (6.96e8 / 950) * (6.96e8 / 950) * 100 * 100)
        = true ->
        mean_vf = 0 /\ mean_vf_err = 0)
    /\ (PrimFloat.is_finite
          (0.5 * 0.5 * (6.96e8 / 950) * (6.96e8 / 950) * 100 * 100)
        = false ->
        PrimFloat.is_nan mean_vf_err = true).
Proof.
  apply (empty_mask_yields_zero [[5; nan]] [[1; 1]] [[10; 90]]%Z
           [[33; 33]]%Z 2 1 6.96e8 950 0.5); reflexivity.
Defined.

(** with a factor that overflows the error is nan and the value 0.0 *)
Example empty_mask_overflowing_factor :
  compute_abs_flux_dask [[5; nan]] [[1; 1]] [[10; 90]]%Z [[33; 33]]%Z 2 1
    1 1 1e200
  = Ok (0, nan, 0%Z).
Proof. vm_compute. reflexivity. Qed.

(** ** Signs of value and error, in double precision *)

(** C10, amended. On same-shape inputs, whatever the entries and the
    geometry scalars are: the value is nan or [>= 0], the error is nan or
    [>= 0], and the count lies between 0 and ny * nx. *)
Theorem value_and_error_are_nonnegative_or_nan (bz bz_err : array float)
    (conf_disambig bitmap : array Z) (nx ny : nat)
    (rsun_ref rsun_obs cdelt1_arcsec : float) :
  has_shape bz ny nx = true ->
  has_shape bz_err ny nx = true ->
  has_shape conf_disambig ny nx = true ->
  has_shape bitmap ny nx = true ->
  exists (mean_vf mean_vf_err : float) (count_mask : Z),
    compute_abs_flux_dask bz bz_err conf_disambig bitmap nx ny
      rsun_ref rsun_obs cdelt1_arcsec
    = Ok (mean_vf, mean_vf_err, count_mask)
    /\ (PrimFloat.is_nan mean_vf = true \/ (0 <=? mean_vf) = true)
    /\ (PrimFloat.is_nan mean_vf_err = true \/ (0 <=? mean_vf_err) = true)
    /\ (0 <= count_mask <= Z.of_nat ny * Z.of_nat nx)%Z.
Proof.
  intros Hbz Herr Hconf Hbitmap.
  rewrite compute_abs_flux_dask_binary64
    by (apply has_shape_covers; assumption).
  eexists. eexists. eexists. split; [reflexivity|].
  split; [|split].
  - apply nonneg_or_nan, scale_has_sign, total_abs_has_sign.
  - apply nonneg_or_nan.
    assert (H := mul_has_sign false false _ _
                   (eq_ind_r (has_sign false)
                      (SFsqrt_nonneg _ (total_sq_err_has_sign bz_err
                         (valid_pixels bz conf_disambig bitmap ny nx)))
                      (sqrt_spec _))
                   (eq_ind_r (has_sign false)
                      (SFabs_nonneg _)
                      (abs_spec (cdelt1_arcsec * cdelt1_arcsec
                                 * (rsun_ref / rsun_obs)
                                 * (rsun_ref / rsun_obs) * 100 * 100)))).
    exact H.
  - split; [apply Nat2Z.is_nonneg|].
    rewrite <- Nat2Z.inj_mul. apply Nat2Z.inj_le.
    unfold valid_pixels. rewrite <- length_all_pixels.
    apply filter_length_le.
Qed.

Lemma value_and_error_are_nonnegative_or_nan_witness :
  exists (mean_vf mean_vf_err : float) (count_mask : Z),
    compute_abs_flux_dask [[1; -2]; [-3; 4]] [[-1; 1]; [2; -1]]
      [[90; 90]; [70; 69]]%Z [[33; 33]; [30; 33]]%Z 2 2 (-1) (-2) (-3)
    = Ok (mean_vf, mean_vf_err, count_mask)
    /\ (PrimFloat.is_nan mean_vf = true \/ (0 <=? mean_vf) = true)
    /\ (PrimFloat.is_nan mean_vf_err = true \/ (0 <=? mean_vf_err) = true)
    /\ (0 <= count_mask <= Z.of_nat 2 * Z.of_nat 2)%Z.
Proof.
  apply (value_and_error_are_nonnegative_or_nan
           [[1; -2]; [-3; 4]] [[-1; 1]; [2; -1]]
           [[90; 90]; [70; 69]]%Z [[33; 33]; [30; 33]]%Z 2 2
           (-1) (-2) (-3)); reflexivity.
Defined.

(** ** The angular pixel scale *)

(** the code's [1/radsindeg] is the double [180/np.pi] *)
Lemma inverse_radsindeg : (1 / radsindeg = 180 / np_pi)%float.
Proof. vm_compute. reflexivity. Qed.

(** C7. Neither function returns a stored arcsecond scale: the last
    component of the returned tuple is
    atan(rsun_ref * cdelt1 * (pi/180) / dsun_obs) * (180/pi) * 3600,
    computed in double precision from the keywords RSUN_REF, CDELT1 and
    DSUN_OBS, with pi the double np.pi and atan the function math.atan. *)
Theorem arcsec_scale_is_derived (atan : float -> float) (t : trec) :
  arcsec_of_tuple (get_data_for_a_single_trec_dask atan t)
  = atan (RSUN_REF t * CDELT1 t * (np_pi / 180) / DSUN_OBS t)
    * (180 / np_pi) * 3600
  /\ arcsec_of_tuple (get_data_for_a_single_trec_numpy atan t)
     = atan (RSUN_REF t * CDELT1 t * (np_pi / 180) / DSUN_OBS t)
       * (180 / np_pi) * 3600.
Proof.
  unfold arcsec_of_tuple, get_data_for_a_single_trec_dask,
    get_data_for_a_single_trec_numpy. simpl.
  unfold cdelt1_arcsec_of. rewrite inverse_radsindeg.
  split; reflexivity.
Qed.

Close Scope float_scope.

(** * More about the loop *)

(** ** The pixel count *)

Lemma for_range_measure {St : Type} (m : St -> Z) (b : Z) (l : list nat)
    (body : nat -> St -> result St) :
  (forall k s s', body k s = Ok s' -> (m s <= m s' <= m s + b)%Z) ->
  forall s s', for_range l body s = Ok s' ->
    (m s <= m s' <= m s + b * Z.of_nat (length l))%Z.
Proof.
  intros Hbody. induction l as [|k l IH]; intros s s' H; simpl in H.
  - inversion H; subst. simpl. lia.
  - destruct (body k s) as [s1|] eqn:E; simpl in H; [|discriminate].
    apply Hbody in E. apply IH in H.
    change (length (k :: l)) with (S (length l)). lia.
Qed.

Lemma pixel_step_count {num : Type} {ops : Arith num} (bz bz_err : array num)
    (conf_disambig bitmap : array Z) (j i : nat) (st st' : acc) :
  pixel_step bz bz_err conf_disambig bitmap j i st = Ok st' ->
  (count_mask st <= count_mask st' <= count_mask st + 1)%Z.
Proof.
  unfold pixel_step.
  destruct (get2 conf_disambig j i) as [c|]; simpl; [|discriminate].
  destruct (c <? 70)%Z; simpl.
  - intros H. inversion H; subst. lia.
  - destruct (get2 bitmap j i) as [b|]; simpl; [|discriminate].
    destruct (b <? 30)%Z; simpl.
    + intros H. inversion H; subst. lia.
    + destruct (get2 bz j i) as [z|]; simpl; [|discriminate].
      destruct (nisnan z); simpl.
      * intros H. inversion H; subst. lia.
      * destruct (get2 bz_err j i) as [e|]; simpl; [|discriminate].
        intros H. inversion H; subst. simpl. lia.
Qed.

(** X6. Whatever the arrays hold and whatever their shapes are, in every
    arithmetic: a returned pixel count lies between 0 and ny * nx. *)
Theorem count_is_within_the_grid {num : Type} {ops : Arith num}
    (bz bz_err : array num) (conf_disambig bitmap : array Z) (nx ny : nat)
    (rsun_ref rsun_obs cdelt1_arcsec mean_vf mean_vf_err : num) (n : Z) :
  compute_abs_flux_dask bz bz_err conf_disambig bitmap nx ny
    rsun_ref rsun_obs cdelt1_arcsec = Ok (mean_vf, mean_vf_err, n) ->
  (0 <= n <= Z.of_nat ny * Z.of_nat nx)%Z.
Proof.
  unfold compute_abs_flux_dask, flux_loop.
  destruct (for_range (seq 0 ny) _ acc0) as [st|] eqn:E; simpl; [|discriminate].
  intros H. inversion H; subst.
  apply (for_range_measure count_mask (Z.of_nat nx)) in E.
  - rewrite length_seq in E. simpl in E. lia.
  - intros j s s' Hrow.
    apply (for_range_measure count_mask 1) in Hrow.
    + rewrite length_seq in Hrow. lia.
    + intros i t t'. apply pixel_step_count.
Qed.

Lemma count_is_within_the_grid_witness :
  (0 <= 2 <= Z.of_nat 1 * Z.of_nat 3)%Z.
Proof.
  apply (count_is_within_the_grid
           [[2%float; 7%float; 5%float]] [[3%float; nan; 4%float]]
           [[90; 10; 90; 90]]%Z [[33; 33; 33]; [0; 0; 0]]%Z 3 1
           1%float 1%float 1%float 70000%float 50000%float 2).
  vm_compute. reflexivity.
Defined.

(** ** When the call raises *)

Lemma for_range_returns_iff {St : Type} (P : nat -> bool) (l : list nat)
    (body : nat -> St -> result St) :
  (forall k s, (exists s', body k s = Ok s') <-> P k = true) ->
  forall s, (exists s', for_range l body s = Ok s') <-> forallb P l = true.
Proof.
  intros Hbody. induction l as [|k l IH]; intros s; simpl.
  - split; [reflexivity | intros _; exists s; reflexivity].
  - rewrite andb_true_iff. split.
    + intros [s' H]. destruct (body k s) as [s1|] eqn:E; simpl in H;
        [|discriminate].
      split.
      * apply (Hbody k s). exists s1. exact E.
      * apply (IH s1). exists s'. exact H.
    + intros [Hk Hl]. apply (Hbody k s) in Hk. destruct Hk as [s1 E].
      rewrite E. simpl. apply IH. exact Hl.
Qed.

Lemma pixel_step_returns_iff {num : Type} {ops : Arith num}
    (bz bz_err : array num) (conf_disambig bitmap : array Z) (j i : nat)
    (st : acc) :
  (exists st', pixel_step bz bz_err conf_disambig bitmap j i st = Ok st')
  <-> reads_ok bz bz_err conf_disambig bitmap (j, i) = true.
Proof.
  unfold pixel_step, reads_ok, in_range; simpl.
  destruct (get2 conf_disambig j i) as [c|]; simpl;
    [|split; [intros [? H]; discriminate | discriminate]].
  destruct (c <? 70)%Z; simpl; [split; eauto|].
  destruct (get2 bitmap j i) as [b|]; simpl;
    [|split; [intros [? H]; discriminate | discriminate]].
  destruct (b <? 30)%Z; simpl; [split; eauto|].
  destruct (get2 bz j i) as [z|]; simpl;
    [|split; [intros [? H]; discriminate | discriminate]].
  destruct (nisnan z); simpl; [split; eauto|].
  destruct (get2 bz_err j i) as [e|]; simpl;
    [split; eauto | split; [intros [? H]; discriminate | discriminate]].
Qed.

Lemma forallb_flat_map {A B : Type} (P : B -> bool) (g : A -> list B)
    (l : list A) :
  forallb P (flat_map g l) = forallb (fun a => forallb P (g a)) l.
Proof.
  induction l as [|a l IH]; simpl.
  - reflexivity.
  - rewrite forallb_app, IH. reflexivity.
Qed.

Lemma forallb_map {A B : Type} (P : B -> bool) (g : A -> B) (l : list A) :
  forallb P (map g l) = forallb (fun a => P (g a)) l.
Proof.
  induction l as [|a l IH]; simpl.
  - reflexivity.
  - rewrite IH. reflexivity.
Qed.

(** X7. The call returns a triple exactly when every element the loop
    needs exists: the confidence at every pixel of the grid, the bitmap
    where the confidence is at least 70, the field where both thresholds
    pass, the error where the field is not nan besides.  In every other
    case it raises IndexError. *)
Theorem returns_iff_every_read_is_in_range {num : Type} {ops : Arith num}
    (bz bz_err : array num) (conf_disambig bitmap : array Z) (nx ny : nat)
    (rsun_ref rsun_obs cdelt1_arcsec : num) :
  (exists t,
     compute_abs_flux_dask bz bz_err conf_disambig bitmap nx ny
       rsun_ref rsun_obs cdelt1_arcsec = Ok t)
  <-> forallb (reads_ok bz bz_err conf_disambig bitmap) (all_pixels ny nx)
      = true.
Proof.
  unfold all_pixels. rewrite forallb_flat_map.
  assert (L : (exists st, flux_loop bz bz_err conf_disambig bitmap nx ny
                          = Ok st)
              <-> forallb (fun j : nat =>
                    forallb (reads_ok bz bz_err conf_disambig bitmap)
                            (map (pair j) (seq 0 nx))) (seq 0 ny) = true).
  { unfold flux_loop. apply for_range_returns_iff. intros j s.
    rewrite forallb_map. apply for_range_returns_iff. intros i s'.
    apply pixel_step_returns_iff. }
  rewrite <- L. unfold compute_abs_flux_dask. split.
  - intros [t H].
    destruct (flux_loop bz bz_err conf_disambig bitmap nx ny) as [st|];
      [exists st; reflexivity | discriminate].
  - intros [st H]. rewrite H. simpl. eexists. reflexivity.
Qed.

(** ** Data the loop does not read *)

Lemma for_range_ext_in {St : Type} (l : list nat)
    (body body' : nat -> St -> result St) :
  (forall k s, In k l -> body k s = body' k s) ->
  forall s, for_range l body s = for_range l body' s.
Proof.
  induction l as [|k l IH]; intros Hext s; simpl.
  - reflexivity.
  - rewrite (Hext k s (in_eq k l)).
    destruct (body' k s); simpl; [|reflexivity].
    apply IH. intros k' s' Hin. apply Hext. right. exact Hin.
Qed.

(** X8. Two inputs give the same result, the same triple or both
    IndexError, when they agree on what the loop reads: the confidence on
    the grid, the bitmap where the confidence is at least 70, the field
    where both thresholds pass, the error where the field is not nan
    besides.  What the arrays hold under the mask or outside the grid,
    and whether they hold anything there, changes nothing. *)
Theorem unread_data_changes_nothing {num : Type} {ops : Arith num}
    (bz bz_err bz' bz_err' : array num)
    (conf_disambig bitmap conf_disambig' bitmap' : array Z) (nx ny : nat)
    (rsun_ref rsun_obs cdelt1_arcsec : num) :
  (forall j i, (j < ny)%nat -> (i < nx)%nat ->
     get2 conf_disambig' j i = get2 conf_disambig j i
     /\ forall c, get2 conf_disambig j i = Ok c -> (70 <= c)%Z ->
        get2 bitmap' j i = get2 bitmap j i
        /\ forall b, get2 bitmap j i = Ok b -> (30 <= b)%Z ->
           get2 bz' j i = get2 bz j i
           /\ forall z, get2 bz j i = Ok z -> nisnan z = false ->
              get2 bz_err' j i = get2 bz_err j i) ->
  compute_abs_flux_dask bz' bz_err' conf_disambig' bitmap' nx ny
    rsun_ref rsun_obs cdelt1_arcsec
  = compute_abs_flux_dask bz bz_err conf_disambig bitmap nx ny
      rsun_ref rsun_obs cdelt1_arcsec.
Proof.
  intros Hagree. unfold compute_abs_flux_dask, flux_loop. f_equal.
  apply for_range_ext_in. intros j s Hj. apply in_seq in Hj.
  apply for_range_ext_in. intros i s' Hi. apply in_seq in Hi.
  destruct (Hagree j i ltac:(lia) ltac:(lia)) as [Hc Hrest].
  unfold pixel_step. rewrite Hc.
  destruct (get2 conf_disambig j i) as [c|]; simpl; [|reflexivity].
  destruct (Z.ltb_spec c 70) as [Hlt|Hge]; simpl; [reflexivity|].
  destruct (Hrest c eq_refl Hge) as [Hb Hrest'].
  rewrite Hb.
  destruct (get2 bitmap j i) as [b|]; simpl; [|reflexivity].
  destruct (Z.ltb_spec b 30) as [Hlt'|Hge']; simpl; [reflexivity|].
  destruct (Hrest' b eq_refl Hge') as [Hz Hrest''].
  rewrite Hz.
  destruct (get2 bz j i) as [z|]; simpl; [|reflexivity].
  destruct (nisnan z) eqn:En; simpl; [reflexivity|].
  rewrite (Hrest'' z eq_refl En). reflexivity.
Qed.

Lemma unread_data_changes_nothing_witness :
  compute_abs_flux_dask [[2%float]] [[3%float; infinity]]
    [[90; 10; 90]]%Z [[33]]%Z 2 1 1%float 1%float 1%float
  = compute_abs_flux_dask [[2%float; 7%float]] [[3%float; nan]]
      [[90; 10]]%Z [[33; 5]]%Z 2 1 1%float 1%float 1%float.
Proof.
  apply (unread_data_changes_nothing
           [[2%float; 7%float]] [[3%float; nan]]
           [[2%float]] [[3%float; infinity]]
           [[90; 10]]%Z [[33; 5]]%Z [[90; 10; 90]]%Z [[33]]%Z 2 1
           1%float 1%float 1%float).
  intros j i Hj Hi.
  destruct j as [|j]; [|lia].
  destruct i as [|[|i]]; [| |lia].
  - split; [reflexivity|]. intros c Hc Hge.
    split; [reflexivity|]. intros b Hb Hge'.
    split; [reflexivity|]. intros z Hz Hnan. reflexivity.
  - split; [reflexivity|]. intros c Hc Hge.
    inversion Hc; subst. lia.
Defined.

(** ** What the error depends on *)

(** X14. The field enters the error and the count only through the places
    where it is nan: two fields with nan at the same pixels of the grid
    give, with the same error map, confidence map and bitmap, the same
    error and the same count, in every arithmetic. *)
Theorem error_ignores_field_values {num : Type} {ops : Arith num}
    (bz bz' bz_err : array num) (conf_disambig bitmap : array Z)
    (nx ny : nat) (rsun_ref rsun_obs cdelt1_arcsec : num) :
  covers bz ny nx = true -> covers bz' ny nx = true ->
  covers bz_err ny nx = true ->
  covers conf_disambig ny nx = true -> covers bitmap ny nx = true ->
  (forall j i, (j < ny)%nat -> (i < nx)%nat ->
     nisnan (px nzero bz' (j, i)) = nisnan (px nzero bz (j, i))) ->
  exists mean_vf mean_vf' mean_vf_err count_mask,
    compute_abs_flux_dask bz bz_err conf_disambig bitmap nx ny
      rsun_ref rsun_obs cdelt1_arcsec
    = Ok (mean_vf, mean_vf_err, count_mask)
    /\ compute_abs_flux_dask bz' bz_err conf_disambig bitmap nx ny
         rsun_ref rsun_obs cdelt1_arcsec
       = Ok (mean_vf', mean_vf_err, count_mask).
Proof.
  intros Hbz Hbz' Herr Hconf Hbitmap Hnan.
  rewrite (compute_abs_flux_dask_valid bz bz_err conf_disambig bitmap)
    by assumption.
  rewrite (compute_abs_flux_dask_valid bz' bz_err conf_disambig bitmap)
    by assumption.
  assert (Hsame : valid_pixels bz' conf_disambig bitmap ny nx
                  = valid_pixels bz conf_disambig bitmap ny nx).
  { unfold valid_pixels. apply filter_ext_in. intros [j i] Hin.
    apply in_all_pixels in Hin. unfold valid.
    rewrite Hnan by tauto. reflexivity. }
  unfold flux_over. rewrite Hsame.
  eexists. eexists. eexists. eexists. split; reflexivity.
Qed.

Lemma error_ignores_field_values_witness :
  exists mean_vf mean_vf' mean_vf_err count_mask,
    compute_abs_flux_dask [[2%float; nan; 5%float]]
      [[3%float; 1%float; 4%float]] [[90; 90; 90]]%Z [[33; 33; 33]]%Z 3 1
      1%float 1%float 1%float
    = Ok (mean_vf, mean_vf_err, count_mask)
    /\ compute_abs_flux_dask [[(-70)%float; nan; infinity]]
         [[3%float; 1%float; 4%float]] [[90; 90; 90]]%Z [[33; 33; 33]]%Z 3 1
         1%float 1%float 1%float
       = Ok (mean_vf', mean_vf_err, count_mask).
Proof.
  apply (error_ignores_field_values
           [[2%float; nan; 5%float]] [[(-70)%float; nan; infinity]]
           [[3%float; 1%float; 4%float]] [[90; 90; 90]]%Z [[33; 33; 33]]%Z
           3 1 1%float 1%float 1%float); try reflexivity.
  intros j i Hj Hi.
  destruct j as [|j]; [|lia].
  destruct i as [|[|[|i]]]; [| | |lia]; reflexivity.
Defined.

(** * Patches and records *)

(** ** Two patches, one above the other *)

Lemma px_above {A : Type} (d : A) (a b : array A) (j i : nat) :
  (j < length a)%nat -> px d (a ++ b) (j, i) = px d a (j, i).
Proof.
  intros Hj. unfold px; simpl. rewrite app_nth1 by assumption. reflexivity.
Qed.

Lemma px_below {A : Type} (d : A) (a b : array A) (k : nat)
    (p : nat * nat) :
  length a = k -> px d (a ++ b) (shift_rows k p) = px d b p.
Proof.
  intros <-. unfold px, shift_rows; simpl.
  rewrite app_nth2_plus. reflexivity.
Qed.

Lemma rows_shifted (k start n nx : nat) :
  flat_map (fun j : nat => map (pair j) (seq 0 nx)) (seq (k + start) n)
  = map (shift_rows k)
        (flat_map (fun j : nat => map (pair j) (seq 0 nx)) (seq start n)).
Proof.
  revert start. induction n as [|n IH]; intros start; simpl.
  - reflexivity.
  - rewrite map_app, map_map. unfold shift_rows at 1. simpl.
    f_equal. rewrite <- IH. f_equal. f_equal. lia.
Qed.

Lemma all_pixels_stacked (ny1 ny2 nx : nat) :
  all_pixels (ny1 + ny2) nx
  = all_pixels ny1 nx ++ map (shift_rows ny1) (all_pixels ny2 nx).
Proof.
  unfold all_pixels. rewrite seq_app, flat_map_app. f_equal.
  rewrite <- rows_shifted. f_equal. f_equal. lia.
Qed.

Lemma has_shape_length {A : Type} (a : array A) (ny nx : nat) :
  has_shape a ny nx = true -> length a = ny.
Proof.
  unfold has_shape. intros H. apply andb_true_iff in H.
  apply Nat.eqb_eq. tauto.
Qed.

Lemma has_shape_stacked {A : Type} (a b : array A) (ny1 ny2 nx : nat) :
  has_shape a ny1 nx = true -> has_shape b ny2 nx = true ->
  has_shape (a ++ b) (ny1 + ny2) nx = true.
Proof.
  unfold has_shape. intros Ha Hb.
  apply andb_true_iff in Ha. apply andb_true_iff in Hb.
  destruct Ha as [La Ra], Hb as [Lb Rb].
  apply Nat.eqb_eq in La. apply Nat.eqb_eq in Lb.
  rewrite length_app, forallb_app, Ra, Rb, La, Lb, Nat.eqb_refl.
  reflexivity.
Qed.

Lemma valid_pixels_stacked {num : Type} {ops : Arith num}
    (bz1 bz2 : array num) (conf1 conf2 bitmap1 bitmap2 : array Z)
    (ny1 ny2 nx : nat) :
  length bz1 = ny1 -> length conf1 = ny1 -> length bitmap1 = ny1 ->
  valid_pixels (bz1 ++ bz2) (conf1 ++ conf2) (bitmap1 ++ bitmap2)
    (ny1 + ny2) nx
  = valid_pixels bz1 conf1 bitmap1 ny1 nx
    ++ map (shift_rows ny1) (valid_pixels bz2 conf2 bitmap2 ny2 nx).
Proof.
  intros Lbz Lconf Lbitmap. unfold valid_pixels.
  rewrite all_pixels_stacked, filter_app, filter_map_swap. f_equal.
  - apply filter_ext_in. intros [j i] Hin. apply in_all_pixels in Hin.
    unfold valid. rewrite !px_above by lia. reflexivity.
  - f_equal. apply filter_ext. intros p. unfold valid.
    rewrite !px_below by assumption. reflexivity.
Qed.

(** X9. Two patches of the same width, in every arithmetic: on the patch
    made of the first above the second the program aggregates over the
    valid pixels of the first followed by those of the second, moved down
    by the height of the first, and its count is the sum of the two
    counts. *)
Theorem stacked_patches_add_counts {num : Type} {ops : Arith num}
    (bz1 bz_err1 bz2 bz_err2 : array num)
    (conf1 bitmap1 conf2 bitmap2 : array Z) (nx ny1 ny2 : nat)
    (rsun_ref rsun_obs cdelt1_arcsec : num) :
  has_shape bz1 ny1 nx = true -> has_shape bz_err1 ny1 nx = true ->
  has_shape conf1 ny1 nx = true -> has_shape bitmap1 ny1 nx = true ->
  has_shape bz2 ny2 nx = true -> has_shape bz_err2 ny2 nx = true ->
  has_shape conf2 ny2 nx = true -> has_shape bitmap2 ny2 nx = true ->
  compute_abs_flux_dask (bz1 ++ bz2) (bz_err1 ++ bz_err2)
    (conf1 ++ conf2) (bitmap1 ++ bitmap2) nx (ny1 + ny2)
    rsun_ref rsun_obs cdelt1_arcsec
  = Ok (flux_over (bz1 ++ bz2) (bz_err1 ++ bz_err2)
          rsun_ref rsun_obs cdelt1_arcsec
          (valid_pixels bz1 conf1 bitmap1 ny1 nx
           ++ map (shift_rows ny1) (valid_pixels bz2 conf2 bitmap2 ny2 nx)))
  /\ exists v1 e1 n1 v2 e2 n2 v e,
       compute_abs_flux_dask bz1 bz_err1 conf1 bitmap1 nx ny1
         rsun_ref rsun_obs cdelt1_arcsec = Ok (v1, e1, n1)
       /\ compute_abs_flux_dask bz2 bz_err2 conf2 bitmap2 nx ny2
            rsun_ref rsun_obs cdelt1_arcsec = Ok (v2, e2, n2)
       /\ compute_abs_flux_dask (bz1 ++ bz2) (bz_err1 ++ bz_err2)
            (conf1 ++ conf2) (bitmap1 ++ bitmap2) nx (ny1 + ny2)
            rsun_ref rsun_obs cdelt1_arcsec = Ok (v, e, (n1 + n2)%Z).
Proof.
  intros Hbz1 Herr1 Hconf1 Hbitmap1 Hbz2 Herr2 Hconf2 Hbitmap2.
  rewrite !(compute_abs_flux_dask_valid _ _ _ _ nx)
    by (apply has_shape_covers;
        assumption || (apply has_shape_stacked; assumption)).
  rewrite (valid_pixels_stacked bz1 bz2 conf1 conf2 bitmap1 bitmap2
             ny1 ny2 nx)
    by (eapply has_shape_length; eassumption).
  split; [reflexivity|].
  unfold flux_over.
  do 8 eexists. split; [reflexivity|]. split; [reflexivity|].
  rewrite length_app, length_map, Nat2Z.inj_add. reflexivity.
Qed.

Lemma stacked_patches_add_counts_witness :
  compute_abs_flux_dask ([[1%float; nan]] ++ [[(-5)%float; 6%float]])
    ([[3%float; 1%float]] ++ [[4%float; 2%float]])
    ([[90; 90]]%Z ++ [[90; 10]]%Z) ([[33; 33]]%Z ++ [[33; 33]]%Z) 2 (1 + 1)
    1%float 1%float 1%float
  = Ok (flux_over ([[1%float; nan]] ++ [[(-5)%float; 6%float]])
          ([[3%float; 1%float]] ++ [[4%float; 2%float]])
          1%float 1%float 1%float
          (valid_pixels [[1%float; nan]] [[90; 90]]%Z [[33; 33]]%Z 1 2
           ++ map (shift_rows 1)
                (valid_pixels [[(-5)%float; 6%float]] [[90; 10]]%Z
                   [[33; 33]]%Z 1 2)))
  /\ exists v1 e1 n1 v2 e2 n2 v e,
       compute_abs_flux_dask [[1%float; nan]] [[3%float; 1%float]]
         [[90; 90]]%Z [[33; 33]]%Z 2 1 1%float 1%float 1%float
       = Ok (v1, e1, n1)
       /\ compute_abs_flux_dask [[(-5)%float; 6%float]]
            [[4%float; 2%float]] [[90; 10]]%Z [[33; 33]]%Z 2 1
            1%float 1%float 1%float
          = Ok (v2, e2, n2)
       /\ compute_abs_flux_dask ([[1%float; nan]] ++ [[(-5)%float; 6%float]])
            ([[3%float; 1%float]] ++ [[4%float; 2%float]])
            ([[90; 90]]%Z ++ [[90; 10]]%Z) ([[33; 33]]%Z ++ [[33; 33]]%Z)
            2 (1 + 1) 1%float 1%float 1%float
          = Ok (v, e, (n1 + n2)%Z).
Proof.
  apply (stacked_patches_add_counts
           [[1%float; nan]] [[3%float; 1%float]]
           [[(-5)%float; 6%float]] [[4%float; 2%float]]
           [[90; 90]]%Z [[33; 33]]%Z [[90; 10]]%Z [[33; 33]]%Z 2 1 1
           1%float 1%float 1%float); reflexivity.
Defined.

(** in double precision the values of two patches need not add up to the
    value of the stack: 0.1 and 0.2 with cdelt1_arcsec = 0.3 *)
Example stacked_values_are_not_added :
  compute_abs_flux_dask [[0.1%float]] [[0%float]] [[90%Z]] [[33%Z]] 1 1
    1%float 1%float 0.3%float
  = Ok ((0.1 * 0.3 * 0.3 * 100 * 100)%float, 0%float, 1%Z)
  /\ compute_abs_flux_dask [[0.2%float]] [[0%float]] [[90%Z]] [[33%Z]] 1 1
       1%float 1%float 0.3%float
     = Ok ((0.2 * 0.3 * 0.3 * 100 * 100)%float, 0%float, 1%Z)
  /\ compute_abs_flux_dask [[0.1%float]; [0.2%float]] [[0%float]; [0%float]]
       [[90%Z]; [90%Z]] [[33%Z]; [33%Z]] 1 2 1%float 1%float 0.3%float
     = Ok (270%float, 0%float, 2%Z)
  /\ (0.1 * 0.3 * 0.3 * 100 * 100 + 0.2 * 0.3 * 0.3 * 100 * 100 =? 270)%float
     = false.
Proof. repeat split; vm_compute; reflexivity. Qed.

(** ** From the record to the keyword *)

(** X10. The two notebook cells together, in double precision: when the
    Br image is rectangular and the three other segments hold every pixel
    of it, the result is the triple aggregated over the valid pixels of
    the whole Br image, nx and ny being the shape of Br and cdelt1_arcsec
    the scale derived from CDELT1, RSUN_REF and DSUN_OBS. *)
Theorem notebook_flux_covers_the_image (atan : float -> float) (t : trec) :
  has_shape (Br t) (shape0 (Br t)) (shape1 (Br t)) = true ->
  covers (Br_err t) (shape0 (Br t)) (shape1 (Br t)) = true ->
  covers (seg_conf_disambig t) (shape0 (Br t)) (shape1 (Br t)) = true ->
  covers (seg_bitmap t) (shape0 (Br t)) (shape1 (Br t)) = true ->
  notebook_flux atan t
  = Ok ((total_abs (Br t)
           (valid_pixels (Br t) (seg_conf_disambig t) (seg_bitmap t)
              (shape0 (Br t)) (shape1 (Br t)))
         * cdelt1_arcsec_of atan (RSUN_REF t) (CDELT1 t) (DSUN_OBS t)
         * cdelt1_arcsec_of atan (RSUN_REF t) (CDELT1 t) (DSUN_OBS t)
         * (RSUN_REF t / RSUN_OBS t) * (RSUN_REF t / RSUN_OBS t)
         * 100 * 100)%float,
        (PrimFloat.sqrt
           (total_sq_err (Br_err t)
              (valid_pixels (Br t) (seg_conf_disambig t) (seg_bitmap t)
                 (shape0 (Br t)) (shape1 (Br t))))
         * PrimFloat.abs
             (cdelt1_arcsec_of atan (RSUN_REF t) (CDELT1 t) (DSUN_OBS t)
              * cdelt1_arcsec_of atan (RSUN_REF t) (CDELT1 t) (DSUN_OBS t)
              * (RSUN_REF t / RSUN_OBS t) * (RSUN_REF t / RSUN_OBS t)
              * 100 * 100))%float,
        Z.of_nat (length (valid_pixels (Br t) (seg_conf_disambig t)
                            (seg_bitmap t) (shape0 (Br t))
                            (shape1 (Br t))))).
Proof.
  intros Hbz Herr Hconf Hbitmap.
  unfold notebook_flux, get_data_for_a_single_trec_dask.
  apply compute_abs_flux_dask_binary64;
    assumption || (apply has_shape_covers; assumption).
Qed.

Lemma notebook_flux_covers_the_image_witness :
  notebook_flux (fun x => x)
    (mkTrec [[1%float; nan]] [[3%float; 1%float]] [[90; 90; 0]]%Z
            [[33; 33]; [0; 0]]%Z 696000000%float 950%float 0.03%float
            150000000000%float)
  = Ok ((total_abs [[1%float; nan]]
           (valid_pixels [[1%float; nan]] [[90; 90; 0]]%Z
              [[33; 33]; [0; 0]]%Z 1 2)
         * cdelt1_arcsec_of (fun x => x) 696000000 0.03 150000000000
         * cdelt1_arcsec_of (fun x => x) 696000000 0.03 150000000000
         * (696000000 / 950) * (696000000 / 950) * 100 * 100)%float,
        (PrimFloat.sqrt
           (total_sq_err [[3%float; 1%float]]
              (valid_pixels [[1%float; nan]] [[90; 90; 0]]%Z
                 [[33; 33]; [0; 0]]%Z 1 2))
         * PrimFloat.abs
             (cdelt1_arcsec_of (fun x => x) 696000000 0.03 150000000000
              * cdelt1_arcsec_of (fun x => x) 696000000 0.03 150000000000
              * (696000000 / 950) * (696000000 / 950) * 100 * 100))%float,
        Z.of_nat (length (valid_pixels [[1%float; nan]] [[90; 90; 0]]%Z
                            [[33; 33]; [0; 0]]%Z 1 2))).
Proof.
  apply (notebook_flux_covers_the_image (fun x => x)
           (mkTrec [[1%float; nan]] [[3%float; 1%float]] [[90; 90; 0]]%Z
                   [[33; 33]; [0; 0]]%Z 696000000%float 950%float
                   0.03%float 150000000000%float));
    reflexivity.
Defined.

(** * Record times *)

Module TaiFacts.

Import Ascii String Tai.
Local Open Scope string_scope.

Example parse_sample :
  parse_tai_string "2011.02.14_15:00:00_TAI" false
  = Value (AsTuple 2011 2 14 15 0).
Proof. vm_compute. reflexivity. Qed.

Example parse_sample_datetime :
  parse_tai_string "2011.02.14_15:00:00_TAI" true
  = Value (AsDatetime (mk_datetime 2011 2 14 15 0 0 0)).
Proof. vm_compute. reflexivity. Qed.

Example parse_no_such_day :
  parse_tai_string "2011.02.30_15:00:00_TAI" true = ValueError.
Proof. vm_compute. reflexivity. Qed.

(** *** Slices *)

Lemma substring_past_end (n m : nat) (s : string) :
  (length s <= n)%nat -> substring n m s = "".
Proof.
  revert s. induction n as [|n IH]; intros s Hlen.
  - destruct s as [|c s]; simpl in Hlen; [|lia]. destruct m; reflexivity.
  - destruct s as [|c s]; simpl; [reflexivity|].
    apply IH. simpl in Hlen. lia.
Qed.

Lemma substring_of_prefix (a n m : nat) (s : string) :
  (a + n <= m)%nat -> substring a n (substring 0 m s) = substring a n s.
Proof.
  revert a n m. induction s as [|c s IH]; intros a n m Hle.
  - destruct m; reflexivity.
  - destruct m as [|m].
    + assert (a = 0%nat) by lia. assert (n = 0%nat) by lia. subst.
      reflexivity.
    + destruct a as [|a]; simpl.
      * destruct n as [|n]; [reflexivity|].
        f_equal. apply (IH 0%nat n m). lia.
      * apply (IH a n m). lia.
Qed.

(** *** Decimal fields *)

Definition reads_as (s : string) (v : Z) : bool :=
  match int s with
  | Value n => (n =? v)%Z
  | ValueError => false
  end.

Lemma reads_as_int (s : string) (v : Z) :
  reads_as s v = true -> int s = Value v.
Proof.
  unfold reads_as. destruct (int s) as [n|]; [|discriminate].
  intros H. apply Z.eqb_eq in H. subst. reflexivity.
Qed.

Lemma int_two_digits (a b : nat) :
  (a < 10)%nat -> (b < 10)%nat ->
  int (String (digit a) (String (digit b) ""))
  = Value (Z.of_nat (10 * a + b)).
Proof.
  intros Ha Hb. apply reads_as_int.
  assert (G : forallb (fun a => forallb (fun b =>
                reads_as (String (digit a) (String (digit b) ""))
                         (Z.of_nat (10 * a + b))) (seq 0 10)) (seq 0 10)
              = true) by (vm_compute; reflexivity).
  rewrite forallb_forall in G.
  assert (Ga := G a ltac:(apply in_seq; lia)).
  rewrite forallb_forall in Ga. apply Ga. apply in_seq. lia.
Qed.

Lemma int_four_digits (a b c d : nat) :
  (a < 10)%nat -> (b < 10)%nat -> (c < 10)%nat -> (d < 10)%nat ->
  int (String (digit a) (String (digit b)
        (String (digit c) (String (digit d) ""))))
  = Value (Z.of_nat (1000 * a + 100 * b + 10 * c + d)).
Proof.
  intros Ha Hb Hc Hd. apply reads_as_int.
  assert (G : forallb (fun a => forallb (fun b =>
              forallb (fun c => forallb (fun d =>
                reads_as (String (digit a) (String (digit b)
                            (String (digit c) (String (digit d) ""))))
                         (Z.of_nat (1000 * a + 100 * b + 10 * c + d)))
              (seq 0 10)) (seq 0 10)) (seq 0 10)) (seq 0 10) = true)
    by (vm_compute; reflexivity).
  rewrite forallb_forall in G.
  assert (Ga := G a ltac:(apply in_seq; lia)).
  rewrite forallb_forall in Ga.
  assert (Gb := Ga b ltac:(apply in_seq; lia)).
  rewrite forallb_forall in Gb.
  assert (Gc := Gb c ltac:(apply in_seq; lia)).
  rewrite forallb_forall in Gc. apply Gc. apply in_seq. lia.
Qed.

(** X1. A string with decimal digits at the positions 0-3, 5-6, 8-9,
    11-12 and 14-15 is read as year, month, day, hour and minute, whatever
    characters stand at the positions 4, 7, 10 and 13 and whatever
    follows position 15 (seconds, time system). *)
Theorem fields_are_read_by_position
    (y1 y2 y3 y4 m1 m2 d1 d2 h1 h2 n1 n2 : nat) (s1 s2 s3 s4 : ascii)
    (rest : string) :
  forallb (fun n => (n <? 10)%nat)
          [y1; y2; y3; y4; m1; m2; d1; d2; h1; h2; n1; n2] = true ->
  parse_tai_string
    (String (digit y1) (String (digit y2) (String (digit y3)
     (String (digit y4) (String s1
     (String (digit m1) (String (digit m2) (String s2
     (String (digit d1) (String (digit d2) (String s3
     (String (digit h1) (String (digit h2) (String s4
     (String (digit n1) (String (digit n2) rest))))))))))))))))
    false
  = Value (AsTuple (Z.of_nat (1000 * y1 + 100 * y2 + 10 * y3 + y4))
                   (Z.of_nat (10 * m1 + m2)) (Z.of_nat (10 * d1 + d2))
                   (Z.of_nat (10 * h1 + h2)) (Z.of_nat (10 * n1 + n2))).
Proof.
  intros H. rewrite forallb_forall in H.
  assert (B : forall n,
            In n [y1; y2; y3; y4; m1; m2; d1; d2; h1; h2; n1; n2] ->
            (n < 10)%nat)
    by (intros n Hn; apply Nat.ltb_lt, H, Hn).
  unfold parse_tai_string, slice.
  cbn [substring Nat.sub].
  rewrite int_four_digits by (apply B; simpl; tauto).
  cbn [and_then].
  destruct rest as [|c rest]; cbn [substring];
    rewrite !int_two_digits by (apply B; simpl; tauto);
    reflexivity.
Qed.

Lemma fields_are_read_by_position_witness :
  parse_tai_string
    (String (digit 2) (String (digit 0) (String (digit 1)
     (String (digit 1) (String "."
     (String (digit 0) (String (digit 2) (String "."
     (String (digit 1) (String (digit 4) (String "_"
     (String (digit 1) (String (digit 5) (String ":"
     (String (digit 0) (String (digit 0) ":59_TAI"))))))))))))))))
    false
  = Value (AsTuple (Z.of_nat (1000 * 2 + 100 * 0 + 10 * 1 + 1))
                   (Z.of_nat (10 * 0 + 2)) (Z.of_nat (10 * 1 + 4))
                   (Z.of_nat (10 * 1 + 5)) (Z.of_nat (10 * 0 + 0))).
Proof.
  apply (fields_are_read_by_position 2 0 1 1 0 2 1 4 1 5 0 0
           "." "." "_" ":" ":59_TAI").
  reflexivity.
Defined.

(** X2. A string of at most 14 characters has no minute field: the call
    raises ValueError, with or without [datetime]. *)
Theorem short_string_raises (tstr : string) (datetime : bool) :
  (length tstr <= 14)%nat -> parse_tai_string tstr datetime = ValueError.
Proof.
  intros Hlen. unfold parse_tai_string.
  assert (Hmin : int (slice 14 16 tstr) = ValueError).
  { unfold slice. rewrite substring_past_end by assumption. reflexivity. }
  rewrite Hmin.
  destruct (int (slice 0 4 tstr)); [|reflexivity].
  destruct (int (slice 5 7 tstr)); [|reflexivity].
  destruct (int (slice 8 10 tstr)); [|reflexivity].
  destruct (int (slice 11 13 tstr)); reflexivity.
Qed.

Lemma short_string_raises_witness :
  parse_tai_string "2011.02.14_15" true = ValueError.
Proof.
  apply (short_string_raises "2011.02.14_15" true). simpl. lia.
Defined.

(** X3. Only the first 16 characters are looked at: the string and its
    prefix of length 16 give the same result or both raise. *)
Theorem only_sixteen_characters_matter (tstr : string) (datetime : bool) :
  parse_tai_string tstr datetime
  = parse_tai_string (substring 0 16 tstr) datetime.
Proof.
  unfold parse_tai_string, slice.
  rewrite !substring_of_prefix by (simpl; lia). reflexivity.
Qed.

(** X4. With [datetime] the call returns a date exactly when the call
    without it returns five numbers that form a date of the calendar:
    year 1 to 9999, month 1 to 12, a day of that month, hour 0 to 23,
    minute 0 to 59.  The date has these fields and zero seconds. *)
Theorem datetime_iff_valid_fields (tstr : string) (d : datetime) :
  parse_tai_string tstr true = Value (AsDatetime d)
  <->
  (parse_tai_string tstr false
   = Value (AsTuple (year d) (month d) (day d) (hour d) (minute d))
   /\ (1 <= year d <= 9999)%Z /\ (1 <= month d <= 12)%Z
   /\ (1 <= day d <= days_in_month (year d) (month d))%Z
   /\ (0 <= hour d <= 23)%Z /\ (0 <= minute d <= 59)%Z
   /\ second d = 0%Z /\ microsecond d = 0%Z).
Proof.
  unfold parse_tai_string.
  destruct (int (slice 0 4 tstr)) as [y|]; cbn [and_then];
    [|split; [discriminate | intros [H _]; discriminate]].
  destruct (int (slice 5 7 tstr)) as [mo|]; cbn [and_then];
    [|split; [discriminate | intros [H _]; discriminate]].
  destruct (int (slice 8 10 tstr)) as [dd|]; cbn [and_then];
    [|split; [discriminate | intros [H _]; discriminate]].
  destruct (int (slice 11 13 tstr)) as [h|]; cbn [and_then];
    [|split; [discriminate | intros [H _]; discriminate]].
  destruct (int (slice 14 16 tstr)) as [mi|]; cbn [and_then];
    [|split; [discriminate | intros [H _]; discriminate]].
  unfold dt_obj.
  destruct ((1 <=? y) && (y <=? 9999) && (1 <=? mo) && (mo <=? 12)
            && (1 <=? dd) && (dd <=? days_in_month y mo)
            && (0 <=? h) && (h <=? 23) && (0 <=? mi) && (mi <=? 59))%Z
    eqn:E; cbn [and_then].
  - rewrite !andb_true_iff, !Z.leb_le in E. split.
    + intros H. inversion H; subst; simpl. repeat split; tauto.
    + intros [H [_ [_ [_ [_ [_ [Hs Hms]]]]]]].
      destruct d; simpl in *. inversion H; subst. reflexivity.
  - split; [discriminate|].
    intros [H V]. inversion H; subst.
    assert (T : ((1 <=? year d) && (year d <=? 9999) && (1 <=? month d)
                 && (month d <=? 12) && (1 <=? day d)
                 && (day d <=? days_in_month (year d) (month d))
                 && (0 <=? hour d) && (hour d <=? 23) && (0 <=? minute d)
                 && (minute d <=? 59))%Z = true).
    { rewrite !andb_true_iff, !Z.leb_le. tauto. }
    rewrite T in E. discriminate.
Qed.

(** X5. The list of record times is built only if every [T_REC] string
    parses as a date: one string that does not makes the comprehension
    raise ValueError, and nothing else does. *)
Theorem t_rec_raises_iff (T_REC : list string) :
  t_rec T_REC = ValueError
  <-> exists tstr, In tstr T_REC /\ parse_tai_string tstr true = ValueError.
Proof.
  induction T_REC as [|tstr rest IH]; simpl.
  - split; [discriminate | intros [s [[] _]]].
  - destruct (parse_tai_string tstr true) as [d|] eqn:E; cbn [and_then].
    + destruct (t_rec rest) as [ds|] eqn:Er; cbn [and_then].
      * split; [discriminate|].
        intros [s [[Hs|Hs] Hfail]].
        -- subst. rewrite E in Hfail. discriminate.
        -- destruct IH as [_ IH]. discriminate IH. exists s. tauto.
      * split; [|reflexivity]. intros _.
        destruct IH as [IH _]. destruct (IH eq_refl) as [s [Hs Hfail]].
        exists s. tauto.
    + split; [|reflexivity]. intros _. exists tstr. tauto.
Qed.

(** when it does not raise, the list has one date per string, in order *)
Lemma t_rec_value (T_REC : list string) (ds : list parsed) :
  t_rec T_REC = Value ds
  <-> Forall2 (fun tstr d => parse_tai_string tstr true = Value d) T_REC ds.
Proof.
  revert ds. induction T_REC as [|tstr rest IH]; intros ds; simpl.
  - split.
    + intros H. inversion H. constructor.
    + intros H. inversion H. reflexivity.
  - destruct (parse_tai_string tstr true) as [d|] eqn:E; cbn [and_then].
    + destruct (t_rec rest) as [ds'|] eqn:Er; cbn [and_then].
      * split.
        -- intros H. inversion H; subst. constructor; [exact E|].
           apply IH. reflexivity.
        -- intros H. inversion H as [|? d0 ? ds0 Hd Hrest]; subst.
           rewrite E in Hd. inversion Hd; subst.
           apply IH in Hrest. inversion Hrest. reflexivity.
      * split; [discriminate|].
        intros H. inversion H as [|? d0 ? ds0 Hd Hrest]; subst.
        apply IH in Hrest. discriminate.
    + split; [discriminate|].
      intros H. inversion H as [|? d0 ? ds0 Hd Hrest]; subst.
      rewrite E in Hd. discriminate.
Qed.

End TaiFacts.
